(** * A shallow embedding of [parl/remote/job.py]

    The job process is modelled as its main thread (the session driver
    [Job.run]) written in a small state/exception monad over a [world].
    The three heartbeat threads act on the shared flags through
    [thread_step]; their actions arrive interleaved with the requests on
    the reply socket through a schedule of [event]s, which the main thread
    consumes where it blocks (a socket receive, a thread join) and where it
    reads the flags (the conditions of the two [while] loops).

    The user class and the codec are abstracted by the outcome each
    request carries: a constructor call either returns an instance or
    raises, a [CALL] dispatch either returns the encoded value or raises;
    user code is taken to have no other effect on the job. *)

From Stdlib Require Import String Ascii ZArith.
From stdpp Require Import base gmap strings list.

Open Scope string_scope.

(** ** Python values and exceptions *)

Definition path := list string.

(** The exceptions the code raises or catches.  [is_Exception] tells the
    subclasses of [Exception] (caught by [except Exception]) from the
    remaining subclasses of [BaseException]. *)
Inductive exn :=
  | AttributeError (msg : string)
  | SerializeError (msg : string)
  | DeserializeError (msg : string)
  | NotImplementedError
  | AssertionError
  | RuntimeError (msg : string)
  | FileNotFoundError (filename : string)
  | NotADirectoryError (filename : string)
  | IsADirectoryError (filename : string)
  | PermissionError (filename : string)
  | FileExistsError (filename : string)
  | ZMQError (msg : string)
  | OtherException (name msg : string)
  | SystemExit (code : string)
  | KeyboardInterrupt.

Definition is_Exception (e : exn) : bool :=
  match e with
  | SystemExit _ | KeyboardInterrupt => false
  | _ => true
  end.

(** [str(e)] *)
Definition str_exn (e : exn) : string :=
  match e with
  | AttributeError m | SerializeError m | DeserializeError m
  | RuntimeError m | ZMQError m | OtherException _ m | SystemExit m => m
  | _ => ""
  end.

(** [traceback.format_exc()]: its text is not modelled beyond its header. *)
Definition format_exc (e : exn) : string :=
  "Traceback (most recent call last):" ++ String "010"%char EmptyString.

(** ** Messages *)

Inductive tag :=
  | SEND_FILE_TAG | INIT_OBJECT_TAG | CALL_TAG | KILLJOB_TAG | NORMAL_TAG
  | HEARTBEAT_TAG | RESET_JOB_TAG | EXCEPTION_TAG | ATTRIBUTE_EXCEPTION_TAG
  | SERIALIZE_EXCEPTION_TAG | DESERIALIZE_EXCEPTION_TAG
  | UNKNOWN_TAG (b : string).

#[global] Instance tag_eq_dec : EqDecision tag.
Proof. solve_decision. Defined.

Definition pyobj := unit.

Inductive outcome (A : Type) := Returns (a : A) | Raises (e : exn).
Arguments Returns {A} a.
Arguments Raises {A} e.

(** The frames after the tag.  [PFiles] is the outcome of
    [pickle.loads(message[1])] of a [SEND_FILE]: the bundle, a dict from
    [str] file names to [bytes], as the list of its items, or the
    exception loading the pickle raises (a pickle that loads to another
    value is outside the model); [PClass] stands for the class
    descriptor and its arguments, by the outcome of [cls( *args, **kwargs)]; [PCall] for the
    method name and the encoded arguments, by the outcome of
    [dumps_return(getattr(obj, name)( *loads_argument(data)))]. *)
Inductive payload :=
  | PFiles (pyfiles : outcome (list (string * string)))
  | PClass (construct : outcome pyobj)
  | PCall (function_name : string) (dispatch : outcome string)
  | PNone.

Record message := Msg { m_tag : tag; m_payload : payload }.

Module Message.

Record addr := Addr { ip : string; port : Z }.

Record InitializedJob := {
  job_address : addr;
  worker_heartbeat_address : option addr;
  client_heartbeat_address : addr;
  ping_heartbeat_address : addr;
  worker_address : option string;
  pid : option Z
}.

End Message.
Import Message (addr, Addr, InitializedJob).

(** ** The world *)

Inductive thread_status := NotStarted | Running | Finished.

(** Actions of the heartbeat threads. *)
Inductive thread_event :=
  | WorkerTimeout   (* the worker heartbeat socket's recv times out *)
  | WorkerExit      (* the worker heartbeat thread's second write *)
  | ClientProbe     (* a client heartbeat arrives and is answered *)
  | ClientTimeout.  (* the client heartbeat socket's recv times out *)

(** A schedule: a request arriving on the reply socket, a heartbeat
    thread's action, or [EvYield], which lets the main thread pass a loop
    condition before the following thread actions happen. *)
Inductive event :=
  | EvRequest (m : message)
  | EvThread (te : thread_event)
  | EvYield.

(** What the job sends and receives on its request endpoint and its two
    outbound channels. *)
Inductive action :=
  | ARecv (m : message)
  | AReply (t : tag) (parts : list string)
  | AWorker (t : tag) (ij : InitializedJob)
  | AMaster (t : tag) (ij : InitializedJob).

(** The attributes of [self]. [reply_pending] is the state of the REP
    socket [reply_socket]: a request was received and not yet answered. *)
Record Job := {
  job_is_alive : bool;
  worker_is_alive : bool;
  client_is_alive : bool;
  client_thread : thread_status;
  job_ip : string;
  job_address : addr;
  ping_heartbeat_address : addr;
  reply_pending : bool
}.

(** The process environment: Python list objects by identity ([heap])
    with [sys_path] the identity of the list [sys.path] names; the file
    system, with the directories and files the job process may write
    ([fs_writable]); and the random choices: [port_of n] is the port the
    [n]-th [bind_to_random_port] settles on (a port no open socket holds),
    [tmp_name n] the name of the [n]-th [tempfile.mkdtemp]. *)
Record OS := {
  heap : gmap nat (list path);
  sys_path : nat;
  fs_dirs : gset path;
  fs_files : gmap path string;
  fs_writable : gset path;
  port_of : nat -> Z;
  binds : nat;
  tmp_name : nat -> string;
  mkdtemps : nat
}.

Record world := {
  self : Job;
  os : OS;
  events : list event;
  trace : list action   (* newest first *)
}.

(** Field updates. *)
Definition with_job_is_alive (b : bool) (j : Job) : Job :=
  {| job_is_alive := b; worker_is_alive := worker_is_alive j;
     client_is_alive := client_is_alive j; client_thread := client_thread j;
     job_ip := job_ip j; job_address := job_address j;
     ping_heartbeat_address := ping_heartbeat_address j;
     reply_pending := reply_pending j |}.
Definition with_worker_is_alive (b : bool) (j : Job) : Job :=
  {| job_is_alive := job_is_alive j; worker_is_alive := b;
     client_is_alive := client_is_alive j; client_thread := client_thread j;
     job_ip := job_ip j; job_address := job_address j;
     ping_heartbeat_address := ping_heartbeat_address j;
     reply_pending := reply_pending j |}.
Definition with_client_is_alive (b : bool) (j : Job) : Job :=
  {| job_is_alive := job_is_alive j; worker_is_alive := worker_is_alive j;
     client_is_alive := b; client_thread := client_thread j;
     job_ip := job_ip j; job_address := job_address j;
     ping_heartbeat_address := ping_heartbeat_address j;
     reply_pending := reply_pending j |}.
Definition with_client_thread (t : thread_status) (j : Job) : Job :=
  {| job_is_alive := job_is_alive j; worker_is_alive := worker_is_alive j;
     client_is_alive := client_is_alive j; client_thread := t;
     job_ip := job_ip j; job_address := job_address j;
     ping_heartbeat_address := ping_heartbeat_address j;
     reply_pending := reply_pending j |}.
Definition with_reply_pending (b : bool) (j : Job) : Job :=
  {| job_is_alive := job_is_alive j; worker_is_alive := worker_is_alive j;
     client_is_alive := client_is_alive j; client_thread := client_thread j;
     job_ip := job_ip j; job_address := job_address j;
     ping_heartbeat_address := ping_heartbeat_address j;
     reply_pending := b |}.

Definition with_heap (h : gmap nat (list path)) (s : nat) (o : OS) : OS :=
  {| heap := h; sys_path := s; fs_dirs := fs_dirs o; fs_files := fs_files o;
     fs_writable := fs_writable o; port_of := port_of o; binds := binds o;
     tmp_name := tmp_name o; mkdtemps := mkdtemps o |}.
Definition with_fs (d : gset path) (f : gmap path string) (wr : gset path) (o : OS) : OS :=
  {| heap := heap o; sys_path := sys_path o; fs_dirs := d; fs_files := f;
     fs_writable := wr; port_of := port_of o; binds := binds o;
     tmp_name := tmp_name o; mkdtemps := mkdtemps o |}.
Definition with_binds (n : nat) (o : OS) : OS :=
  {| heap := heap o; sys_path := sys_path o; fs_dirs := fs_dirs o;
     fs_files := fs_files o; fs_writable := fs_writable o; port_of := port_of o;
     binds := n; tmp_name := tmp_name o; mkdtemps := mkdtemps o |}.
Definition with_mkdtemps (n : nat) (o : OS) : OS :=
  {| heap := heap o; sys_path := sys_path o; fs_dirs := fs_dirs o;
     fs_files := fs_files o; fs_writable := fs_writable o; port_of := port_of o;
     binds := binds o; tmp_name := tmp_name o; mkdtemps := n |}.

Definition map_self (f : Job -> Job) (w : world) : world :=
  {| self := f (self w); os := os w; events := events w; trace := trace w |}.
Definition map_os (f : OS -> OS) (w : world) : world :=
  {| self := self w; os := f (os w); events := events w; trace := trace w |}.
Definition set_events (e : list event) (w : world) : world :=
  {| self := self w; os := os w; events := e; trace := trace w |}.
Definition emit (a : action) (w : world) : world :=
  {| self := self w; os := os w; events := events w; trace := a :: trace w |}.

(** ** The main thread's monad: state, Python exceptions, and [Blocked]
    when the schedule or the fuel runs out (the thread waits forever). *)

Inductive result (A : Type) := Ok (a : A) | Raise (e : exn) | Blocked.
Arguments Ok {A} a.
Arguments Raise {A} e.
Arguments Blocked {A}.

Definition M (A : Type) := world -> result A * world.

Definition ret {A} (a : A) : M A := fun w => (Ok a, w).
Definition bind {A B} (m : M A) (k : A -> M B) : M B := fun w =>
  match m w with
  | (Ok a, w') => k a w'
  | (Raise e, w') => (Raise e, w')
  | (Blocked, w') => (Blocked, w')
  end.
Notation "'let!' x ':=' m 'in' k" := (bind m (fun x => k))
  (at level 200, x name, m at level 100, k at level 200).

Definition raise {A} (e : exn) : M A := fun w => (Raise e, w).
Definition blocked {A} : M A := fun w => (Blocked, w).
Definition gets {A} (f : world -> A) : M A := fun w => (Ok (f w), w).
Definition modify (f : world -> world) : M unit := fun w => (Ok tt, f w).

(** [try: m except Exception as e: handler(e)] *)
Definition try_except {A} (m : M A) (handler : exn -> M A) : M A := fun w =>
  match m w with
  | (Raise e, w') => if is_Exception e then handler e w' else (Raise e, w')
  | r => r
  end.

(** ** The heartbeat threads *)

(** One action of a heartbeat thread on the shared flags:
    [_reply_worker_heartbeat] and [_reply_client_heartbeat].  The worker
    thread's recv times out only inside its loop, entered while both of
    its flags hold; it then writes [self.worker_is_alive = False] and, as
    its next action, [self.job_is_alive = False].  No other code writes
    these two flags, so [worker_is_alive] is [False] while [job_is_alive]
    is [True] exactly between the two writes. *)
Definition thread_step (te : thread_event) (w : world) : world :=
  match te with
  | WorkerTimeout =>
      if worker_is_alive (self w) && job_is_alive (self w)
      then map_self (with_worker_is_alive false) w
      else w
  | WorkerExit =>
      if negb (worker_is_alive (self w)) && job_is_alive (self w)
      then map_self (with_job_is_alive false) w
      else w
  | ClientProbe =>
      match client_thread (self w) with
      | Running =>
          if client_is_alive (self w) then w
          else map_self (with_client_thread Finished) w
      | _ => w
      end
  | ClientTimeout =>
      match client_thread (self w) with
      | Running =>
          map_self (fun j => with_client_thread Finished (with_client_is_alive false j)) w
      | _ => w
      end
  end.

(** The thread actions scheduled before the main thread reads a flag. *)
Fixpoint poll_events (evs : list event) (w : world) : world :=
  match evs with
  | EvThread te :: evs' => poll_events evs' (thread_step te w)
  | _ => set_events evs w
  end.

Definition poll : M unit := fun w => (Ok tt, poll_events (events w) w).

(** [threading.Thread.start] of the client heartbeat thread; the thread's
    first statement [self.client_is_alive = True] is taken to run at once. *)
Definition client_thread_start : M unit := fun w =>
  match client_thread (self w) with
  | NotStarted =>
      (Ok tt, map_self (fun j => with_client_is_alive true (with_client_thread Running j)) w)
  | _ => (Raise (RuntimeError "threads can only be started once"), w)
  end.

(** [self.client_thread.join()]: requests arriving meanwhile stay queued. *)
Fixpoint join_events (evs : list event) (w : world) : result unit * world :=
  match client_thread (self w) with
  | Finished => (Ok tt, set_events evs w)
  | _ =>
      match evs with
      | [] => (Blocked, set_events [] w)
      | EvThread te :: evs' => join_events evs' (thread_step te w)
      | e :: evs' =>
          let '(r, w') := join_events evs' w in (r, set_events (e :: events w') w')
      end
  end.

Definition client_thread_join : M unit := fun w =>
  match client_thread (self w) with
  | NotStarted => (Raise (RuntimeError "cannot join thread before it is started"), w)
  | _ => join_events (events w) w
  end.

(** [self.client_thread = threading.Thread(...)] *)
Definition new_client_thread : M unit :=
  modify (map_self (with_client_thread NotStarted)).

(** ** Sockets *)

Definition EFSM := "Operation cannot be accomplished in current state".

(** [reply_socket.recv_multipart()] on the REP socket. *)
Fixpoint next_request (evs : list event) (w : world) : result message * world :=
  match evs with
  | [] => (Blocked, set_events [] w)
  | EvRequest m :: evs' => (Ok m, set_events evs' w)
  | EvThread te :: evs' => next_request evs' (thread_step te w)
  | EvYield :: evs' => next_request evs' w
  end.

Definition recv_multipart : M message := fun w =>
  if reply_pending (self w) then (Raise (ZMQError EFSM), w)
  else
    match next_request (events w) w with
    | (Ok m, w') => (Ok m, emit (ARecv m) (map_self (with_reply_pending true) w'))
    | r => r
    end.

(** [reply_socket.send_multipart([t] + parts)] *)
Definition send_multipart (t : tag) (parts : list string) : M unit := fun w =>
  if reply_pending (self w)
  then (Ok tt, emit (AReply t parts) (map_self (with_reply_pending false) w))
  else (Raise (ZMQError EFSM), w).

(** [_create_heartbeat_server]: bind a fresh REP socket with
    [bind_to_random_port] and return its address.  The port is
    [port_of] of the index of the bind; pyzmq tries random ports until a
    bind succeeds, so a port that an open socket holds is never chosen,
    while the port of a closed socket can be. *)
Definition create_heartbeat_server : M addr := fun w =>
  (Ok (Addr (job_ip (self w)) (port_of (os w) (binds (os w)))),
   map_os (fun o => with_binds (S (binds o)) o) w).

(** [master_socket.send_multipart([t, cloudpickle.dumps(ij)])] followed
    by [master_socket.recv_multipart()], the master's acknowledgement. *)
Definition master_send (t : tag) (ij : InitializedJob) : M unit :=
  modify (emit (AMaster t ij)).

(** ** [sys.path] *)

(** [sys.path.append(x)]: mutates the list object [sys.path] names. *)
Definition sys_path_append (x : path) : M unit := fun w =>
  let o := os w in
  let l := default [] (heap o !! sys_path o) in
  (Ok tt, map_os (with_heap (<[sys_path o := app l [x]]> (heap o)) (sys_path o)) w).

(** [sys.path = r]: rebinds the name to the list object [r]. *)
Definition set_sys_path (r : nat) : M unit :=
  modify (map_os (fun o => with_heap (heap o) r o)).

(** ** The file system *)

Definition nl : string := String "010"%char EmptyString.
Definition traceback_sep : string := nl ++ "traceback:" ++ nl.

(** The components of a string path, split at ['/']; empty components
    (repeated or trailing separators) are dropped. *)
Fixpoint split_slash (s : string) : list string :=
  match s with
  | EmptyString => [""]
  | String c s' =>
      if Ascii.eqb c "/"%char then "" :: split_slash s'
      else match split_slash s' with
           | [] => [String c EmptyString]
           | x :: xs => String c x :: xs
           end
  end.

Definition components (s : string) : list string :=
  List.filter (fun c => negb (String.eqb c "")) (split_slash s).

(** [s.startswith('/')], [s.endswith('/')] *)
Definition starts_with_slash (s : string) : bool :=
  match s with
  | String c _ => Ascii.eqb c "/"%char
  | EmptyString => false
  end.

Fixpoint ends_with_slash (s : string) : bool :=
  match s with
  | EmptyString => false
  | String c EmptyString => Ascii.eqb c "/"%char
  | String _ s' => ends_with_slash s'
  end.

(** The string of an absolute directory, as [tempfile.mkdtemp] returns it. *)
Fixpoint slashes (p : path) : string :=
  match p with
  | [] => ""
  | c :: p' => "/" ++ c ++ slashes p'
  end.

Definition path_str (p : path) : string :=
  match p with
  | [] => "/"
  | _ => slashes p
  end.

(** [os.path.join(a, b)], that is [posixpath.join]: an absolute [b]
    discards [a]. *)
Definition os_path_join (a b : string) : string :=
  if starts_with_slash b then b
  else if String.eqb a "" || ends_with_slash a then a ++ b
  else a ++ "/" ++ b.

(** The errors of [open(2)] the loader can meet, and the [OSError]
    subclasses Python raises for them. *)
Inductive errno := ENOENT | ENOTDIR | EISDIR | EACCES.

Definition oserror (e : errno) (file : string) : exn :=
  match e with
  | ENOENT => FileNotFoundError file
  | ENOTDIR => NotADirectoryError file
  | EISDIR => IsADirectoryError file
  | EACCES => PermissionError file
  end.

(** The lookup of the directory components of a path from the directory
    [cur]: ['.'] stays, ['..'] goes to the parent (the root is its own
    parent), a name must be an existing directory.  Every directory is
    taken to be searchable. *)
Fixpoint walk (o : OS) (cur : path) (cs : list string) : errno + path :=
  match cs with
  | [] => inr cur
  | c :: cs' =>
      if String.eqb c "." then walk o cur cs'
      else if String.eqb c ".." then walk o (removelast cur) cs'
      else
        let n := app cur [c] in
        if decide (n ∈ fs_dirs o) then walk o n cs'
        else if decide (n ∈ dom (fs_files o)) then inl ENOTDIR
        else inl ENOENT
  end.

(** [with open(file, 'wb') as f: f.write(code)]: [open(2)] with
    [O_WRONLY|O_CREAT|O_TRUNC] on Linux.  The paths the job opens are
    absolute and resolved from the root, repeated separators counting as
    one; [open] creates no directory.  The last component must name a
    file: ['.'], ['..'], a trailing ['/'] and an existing directory fail
    with [EISDIR].  Creating a file needs a writable directory, truncating
    one a writable file. *)
Definition open_write (file : string) (code : string) : M unit := fun w =>
  let o := os w in
  let cs := components file in
  if String.eqb file "" then (Raise (FileNotFoundError file), w)
  else
    match walk o [] (removelast cs) with
    | inl e => (Raise (oserror e file), w)
    | inr dir =>
        match last cs with
        | None => (Raise (IsADirectoryError file), w)
        | Some name =>
            if String.eqb name "." || String.eqb name ".." || ends_with_slash file
            then (Raise (IsADirectoryError file), w)
            else
              let p := app dir [name] in
              if decide (p ∈ fs_dirs o) then (Raise (IsADirectoryError file), w)
              else
                let allowed :=
                  if decide (p ∈ dom (fs_files o)) then bool_decide (p ∈ fs_writable o)
                  else bool_decide (dir ∈ fs_writable o) in
                if allowed
                then (Ok tt, map_os (with_fs (fs_dirs o) (<[p := code]> (fs_files o))
                                             (fs_writable o)) w)
                else (Raise (PermissionError file), w)
        end
    end.

Definition tempdir : path := ["tmp"].

(** No directory or file exists at or below [d]. *)
Definition fresh_dir (d : path) (o : OS) : bool :=
  forallb (fun p => negb (bool_decide (d `prefix_of` p))) (elements (fs_dirs o)) &&
  forallb (fun p => negb (bool_decide (d `prefix_of` p))) (elements (dom (fs_files o))).

(** [tempfile.mkdtemp()]: [os.mkdir] of a new directory, of mode
    [0o700] and so writable by the job, in the temporary directory [/tmp]
    (the environment names none; when [/tmp] is not usable the model
    fails as [gettempdir] does when no candidate is).  [tmp_name] names
    the attempt that [mkdtemp] keeps, and an existing name makes it fail
    as [mkdtemp] does when it runs out of attempts. *)
Definition mkdtemp : M path := fun w =>
  let o := os w in
  if negb (bool_decide (tempdir ∈ fs_dirs o) && bool_decide (tempdir ∈ fs_writable o))
  then (Raise (FileNotFoundError "No usable temporary directory found"), w)
  else
    let d := app tempdir [tmp_name o (mkdtemps o)] in
    let o' := with_mkdtemps (S (mkdtemps o)) o in
    if fresh_dir d o
    then (Ok d, map_os (fun _ => with_fs ({[d]} ∪ fs_dirs o') (fs_files o')
                                         ({[d]} ∪ fs_writable o') o') w)
    else (Raise (FileExistsError "No usable temporary directory name found"),
          map_os (fun _ => o') w).

(** ** [Job] *)

(** User code the job runs (the class's constructor, a called method):
    its result, or the exception it raises.  User code is taken to leave
    the job's flags, its sockets, the file system and [sys.path] alone;
    what it does besides is outside the model. *)
Definition call_outcome {A} (o : outcome A) : M A :=
  match o with Returns a => ret a | Raises e => raise e end.

Definition UnpicklingError := OtherException "UnpicklingError" "".
Definition IndexError := OtherException "IndexError" "list index out of range".

Definition TypeError_not_iterable := OtherException "TypeError" "'type' object is not iterable".

(** [pickle.loads(message[1])] of a [SEND_FILE]: the bundle, or the
    exception loading it raises; a message without that frame raises
    [IndexError].  The frames of an [INIT_OBJECT] load as a class, which is
    no dict ([None]); the method name of a [CALL] is no pickle. *)
Definition loads_pyfiles (p : payload) : M (option (list (string * string))) :=
  match p with
  | PFiles (Returns f) => ret (Some f)
  | PFiles (Raises e) => raise e
  | PClass _ => ret None
  | PCall _ _ => raise UnpicklingError
  | PNone => raise IndexError
  end.

(** [cloudpickle.loads(message[1])], [cloudpickle.loads(message[2])] of an
    [INIT_OBJECT]; a message of one frame after the tag, or none, raises
    [IndexError]. *)
Definition loads_class (p : payload) : M (outcome pyobj) :=
  match p with
  | PClass c => ret c
  | PCall _ _ => raise UnpicklingError
  | _ => raise IndexError
  end.

(** [to_str(message[1])], [message[2]] of a [CALL] *)
Definition loads_call (p : payload) : M (outcome string) :=
  match p with PCall _ d => ret d | _ => raise IndexError end.

(** The loop body of [for file in pyfiles] in [wait_for_files]. *)
Fixpoint write_pyfiles (envdir : path) (pyfiles : list (string * string)) : M unit :=
  match pyfiles with
  | [] => ret tt
  | (file, code) :: rest =>
      let! _ := open_write (os_path_join (path_str envdir) file) code in
      write_pyfiles envdir rest
  end.

(** [Job.wait_for_files]: its [while True] loop runs once, every branch
    returns or raises. *)
Definition wait_for_files : M path :=
  let! message := recv_multipart in
  if decide (m_tag message = SEND_FILE_TAG) then
    let! pyfiles := loads_pyfiles (m_payload message) in
    let! envdir := mkdtemp in
    let! _ :=
      match pyfiles with
      | Some files => write_pyfiles envdir files
      | None => raise TypeError_not_iterable
      end in
    let! _ := send_multipart NORMAL_TAG [] in
    ret envdir
  else
    raise NotImplementedError.

Definition set_client_is_alive (b : bool) : M unit :=
  modify (map_self (with_client_is_alive b)).

(** [Job.wait_for_connection] *)
Definition wait_for_connection : M (option pyobj) :=
  let! message := recv_multipart in
  if decide (m_tag message = INIT_OBJECT_TAG) then
    let! construct := loads_class (m_payload message) in
    let! obj :=
      try_except
        (let! o := call_outcome construct in ret (Some o))
        (fun e =>
           let! _ := send_multipart EXCEPTION_TAG
                       [str_exn e ++ traceback_sep ++ format_exc e] in
           let! _ := set_client_is_alive false in
           ret None) in
    match obj with
    | None => ret None
    | Some o =>
        let! _ := send_multipart NORMAL_TAG [] in
        ret (Some o)
    end
  else
    let! _ := send_multipart EXCEPTION_TAG
                ["[job]Unkonwn tag when tried to receive the class definition"] in
    raise NotImplementedError.

(** The [except Exception as e] branch of a [CALL] in [Job.single_task]. *)
Definition call_exception (e : exn) : M unit :=
  let! _ := set_client_is_alive false in
  let error_str := str_exn e in
  match e with
  | AttributeError _ => send_multipart ATTRIBUTE_EXCEPTION_TAG [error_str]
  | SerializeError _ => send_multipart SERIALIZE_EXCEPTION_TAG [error_str]
  | DeserializeError _ => send_multipart DESERIALIZE_EXCEPTION_TAG [error_str]
  | _ => send_multipart EXCEPTION_TAG [error_str ++ traceback_sep ++ format_exc e]
  end.

(** The dispatch on the tag of one request in [Job.single_task]. *)
Definition handle_request (message : message) : M unit :=
  match m_tag message with
  | CALL_TAG =>
      try_except
        (let! dispatch := loads_call (m_payload message) in
         let! r := call_outcome dispatch in
         send_multipart NORMAL_TAG [r])
        call_exception
  | KILLJOB_TAG =>
      let! _ := send_multipart NORMAL_TAG [] in
      set_client_is_alive false
  | _ => raise NotImplementedError
  end.

(** [Job.single_task]; [fuel] bounds the number of requests served. *)
Fixpoint single_task (fuel : nat) (obj : pyobj) : M unit :=
  let! _ := poll in
  let! j := gets self in
  if job_is_alive j && client_is_alive j then
    match fuel with
    | O => blocked
    | S fuel' =>
        let! message := recv_multipart in
        let! _ := handle_request message in
        single_task fuel' obj
    end
  else ret tt.

(** The [except Exception] branch in [Job.run]: it only logs. *)
Definition reset_on_error (e : exn) : M unit := ret tt.

(** The [try] block of [Job.run]. *)
Definition serve (fuel : nat) : M unit :=
  try_except
    (let! obj := wait_for_connection in
     match obj with
     | None => raise AssertionError
     | Some o => single_task fuel o
     end)
    reset_on_error.

(** The reset at the end of [Job.run]'s loop body, from
    [sys.path = previous_path] to the master's acknowledgement. *)
Definition reset_job (previous_path : nat) : M unit :=
  let! _ := set_sys_path previous_path in
  let! _ := client_thread_join in
  let! client_heartbeat_address := create_heartbeat_server in
  let! _ := new_client_thread in
  let! j := gets self in
  master_send RESET_JOB_TAG
    {| Message.job_address := job_address j;
       Message.worker_heartbeat_address := None;
       Message.client_heartbeat_address := client_heartbeat_address;
       Message.ping_heartbeat_address := ping_heartbeat_address j;
       Message.worker_address := None;
       Message.pid := None |}.

(** [Job.run]; [fuel] bounds the number of sessions. *)
Fixpoint run (fuel : nat) : M unit :=
  let! _ := poll in
  let! j := gets self in
  if job_is_alive j then
    match fuel with
    | O => blocked
    | S fuel' =>
        let! envdir := wait_for_files in
        let! previous_path := gets (fun w => sys_path (os w)) in
        let! _ := sys_path_append envdir in
        let! _ := client_thread_start in
        let! _ := serve fuel' in
        let! _ := reset_job previous_path in
        run fuel'
    end
  else ret tt.

(** [Job.__init__] and [Job._create_sockets]: the reply socket, the ping,
    worker heartbeat and client heartbeat servers are bound in this order;
    the ping and worker heartbeat threads are started (the latter sets
    [worker_is_alive]), and the [InitializedJob] is sent to the worker and
    acknowledged. *)
Definition Job_init (ip : string) (pid : Z) (o : OS) (evs : list event) : world :=
  let n := binds o in
  let bound k := Addr ip (port_of o (n + k)) in
  {| self := {| job_is_alive := true;
                worker_is_alive := true;
                client_is_alive := false;
                client_thread := NotStarted;
                job_ip := ip;
                job_address := bound 0;
                ping_heartbeat_address := bound 1;
                reply_pending := false |};
     os := with_binds (n + 4) o;
     events := evs;
     trace := [AWorker NORMAL_TAG
                 {| Message.job_address := bound 0;
                    Message.worker_heartbeat_address := Some (bound 2);
                    Message.client_heartbeat_address := bound 3;
                    Message.ping_heartbeat_address := bound 1;
                    Message.worker_address := None;
                    Message.pid := Some pid |}] |}.

(** ** Observations on runs *)

(** The announcement [reset_job] sends in world [w] when the [k]-th bind
    gave the new client heartbeat server its port. *)
Definition reset_announcement (w : world) (k : nat) : InitializedJob :=
  {| Message.job_address := job_address (self w);
     Message.worker_heartbeat_address := None;
     Message.client_heartbeat_address := Addr (job_ip (self w)) (port_of (os w) k);
     Message.ping_heartbeat_address := ping_heartbeat_address (self w);
     Message.worker_address := None;
     Message.pid := None |}.

(** The messages sent to the master, newest first. *)
Definition masters (tr : list action) : list (tag * InitializedJob) :=
  List.flat_map (fun a => match a with AMaster t ij => [(t, ij)] | _ => [] end) tr.

(** What the job never changes or only lets decrease from [w] to [w']:
    [job_is_alive] only goes from [true] to [false]; its addresses and the
    OS's port choices stay; the count of binds only grows; and the master
    was sent one [RESET_JOB] announcement per bind [k] of [ks], each one a
    bind made between [w] and [w']. *)
Definition frame (w w' : world) : Prop :=
  (job_is_alive (self w) = false -> job_is_alive (self w') = false) /\
  job_ip (self w') = job_ip (self w) /\
  job_address (self w') = job_address (self w) /\
  ping_heartbeat_address (self w') = ping_heartbeat_address (self w) /\
  port_of (os w') = port_of (os w) /\
  binds (os w) <= binds (os w') /\
  (exists ks : list nat,
     masters (trace w') =
       app (map (fun k => (RESET_JOB_TAG, reset_announcement w k)) ks) (masters (trace w)) /\
     NoDup ks /\ Forall (fun k => binds (os w) <= k /\ k < binds (os w')) ks).

Definition framed {A} (m : M A) : Prop := forall w, frame w (snd (m w)).

Definition is_call (m : message) : bool :=
  match m_tag m with CALL_TAG => true | _ => false end.

Definition no_leading_reply (c : list action) : bool :=
  match c with AReply _ _ :: _ => false | _ => true end.

(** In the chronological list of actions [c], every received [CALL] is
    followed at once by one reply and then by no second reply. *)
Fixpoint answered (c : list action) : bool :=
  match c with
  | [] => true
  | ARecv m :: rest =>
      if is_call m then
        match rest with
        | AReply _ _ :: rest' => no_leading_reply rest' && answered rest'
        | _ => false
        end
      else answered rest
  | _ :: rest => answered rest
  end.

(** A [CALL] whose dispatch raises, raises a subclass of [Exception]. *)
Definition call_raises_Exception (ev : event) : Prop :=
  match ev with
  | EvRequest (Msg CALL_TAG (PCall _ (Raises e))) => is_Exception e = true
  | _ => True
  end.



Definition master_client_addrs (tr : list action) : list addr :=
  List.flat_map (fun a => match a with
                          | AMaster _ ij => [Message.client_heartbeat_address ij]
                          | _ => [] end) tr.

Definition worker_client_addrs (tr : list action) : list addr :=
  List.flat_map (fun a => match a with
                          | AWorker _ ij => [Message.client_heartbeat_address ij]
                          | _ => [] end) tr.

Definition sent_reset_job (tr : list action) : bool :=
  List.existsb (fun a => match a with AMaster RESET_JOB_TAG _ => true | _ => false end) tr.

(** ** Concrete inputs *)

Definition demo_os (ports : nat -> Z) : OS :=
  {| heap := {[0 := [["usr"; "lib"; "python3"]]]}; sys_path := 0;
     fs_dirs := {[ []; ["tmp"]; ["usr"] ]}; fs_files := ∅; fs_writable := {[ ["tmp"] ]};
     port_of := ports; binds := 0;
     tmp_name := fun n => String (ascii_of_nat (97 + n)) "job"; mkdtemps := 0 |}.

(** Ports of the binds: every bind its own port, or the bind of the first
    reset (the fifth) on the port of the fourth, the client heartbeat
    server of startup. *)
Definition distinct_ports (n : nat) : Z := 50000 + Z.of_nat n.
Definition reused_port (n : nat) : Z := if Nat.eqb n 4 then 50003 else 50000 + Z.of_nat n.

Definition demo_world (ports : nat -> Z) (evs : list event) : world :=
  Job_init "10.0.0.1" 4242 (demo_os ports) evs.

Definition m_files := Msg SEND_FILE_TAG (PFiles (Returns [("u.py", "class C")])).
Definition m_init := Msg INIT_OBJECT_TAG (PClass (Returns tt)).
Definition m_call (d : outcome string) := Msg CALL_TAG (PCall "f" d).
Definition m_kill := Msg KILLJOB_TAG PNone.

(** The world in which a session serves calls: the files and the object
    were accepted and the client heartbeat thread runs. *)
Definition serving_world (evs : list event) : world :=
  let w := snd (run 1 (demo_world distinct_ports [EvRequest m_files; EvRequest m_init])) in
  set_events evs w.

(** [m] leaves the list objects and the binding of [sys.path] alone. *)
Definition keeps_sys_path {A} (m : M A) : Prop :=
  forall w, heap (os (snd (m w))) = heap (os w) /\ sys_path (os (snd (m w))) = sys_path (os w).

(** ** Invariants of the job's flags *)

(** [m] keeps [P] of the world. *)
Definition preserves (P : world -> Prop) {A} (m : M A) : Prop :=
  forall w, P w -> P (snd (m w)).

(** The flags the threads share: [job_is_alive], [worker_is_alive],
    [client_is_alive] and the state of the client heartbeat thread. *)
Definition flags (j : Job) : bool * bool * bool * thread_status :=
  (job_is_alive j, worker_is_alive j, client_is_alive j, client_thread j).

Definition inv (F : bool * bool * bool * thread_status -> Prop) (w : world) : Prop :=
  F (flags (self w)).

Definition keeps_flags {A} (m : M A) : Prop :=
  forall w, flags (self (snd (m w))) = flags (self w).

(** A finished client heartbeat thread has set [client_is_alive] to [false]. *)
Definition finished_client_dead (f : bool * bool * bool * thread_status) : Prop :=
  let '(_, _, client, t) := f in t = Finished -> client = false.

(** * Lemmas *)

(** ** The frame of a run *)

Lemma frame_refl w : frame w w.
Proof. unfold frame; repeat split; auto. exists []; simpl; repeat constructor. Qed.

Lemma reset_announcement_frame w1 w2 k :
  job_ip (self w2) = job_ip (self w1) ->
  job_address (self w2) = job_address (self w1) ->
  ping_heartbeat_address (self w2) = ping_heartbeat_address (self w1) ->
  port_of (os w2) = port_of (os w1) ->
  reset_announcement w2 k = reset_announcement w1 k.
Proof. intros H1 H2 H3 H4; unfold reset_announcement; congruence. Qed.

Lemma frame_trans w1 w2 w3 : frame w1 w2 -> frame w2 w3 -> frame w1 w3.
Proof.
  unfold frame;
    intros (H1 & H2 & H3 & H4 & H5 & H6 & ks1 & K1 & N1 & F1)
           (G1 & G2 & G3 & G4 & G5 & G6 & ks2 & K2 & N2 & F2).
  repeat split; try congruence; auto; try lia.
  exists (app ks2 ks1); repeat split.
  - assert (E : forall k, reset_announcement w2 k = reset_announcement w1 k)
      by (intros k; apply reset_announcement_frame; auto).
    rewrite K2, K1, map_app, <- app_assoc.
    f_equal; apply List.map_ext; intros k; rewrite E; reflexivity.
  - apply NoDup_app; repeat split; auto.
    intros k Hk2 Hk1.
    rewrite Forall_forall in F1, F2.
    specialize (F1 k Hk1); specialize (F2 k Hk2); lia.
  - apply Forall_app; split.
    + eapply Forall_impl; [exact F2 |]; simpl; intros; lia.
    + eapply Forall_impl; [exact F1 |]; simpl; intros; lia.
Qed.

Ltac frame_tac :=
  unfold frame; simpl; repeat split; intros; auto; try congruence; try lia;
  try (exists []; simpl; repeat constructor).

Create HintDb framed.

Lemma framed_ret {A} (a : A) : framed (ret a).
Proof. intros w; apply frame_refl. Qed.

Lemma framed_raise {A} e : framed (@raise A e).
Proof. intros w; apply frame_refl. Qed.

Lemma framed_blocked {A} : framed (@blocked A).
Proof. intros w; apply frame_refl. Qed.

Lemma framed_gets {A} (f : world -> A) : framed (gets f).
Proof. intros w; apply frame_refl. Qed.

Lemma framed_bind {A B} (m : M A) (k : A -> M B) :
  framed m -> (forall a, framed (k a)) -> framed (bind m k).
Proof.
  intros Hm Hk w; unfold bind.
  specialize (Hm w); destruct (m w) as [[a | e |] w']; simpl in *; auto.
  eapply frame_trans; [exact Hm | apply Hk].
Qed.

Lemma framed_try_except {A} (m : M A) (h : exn -> M A) :
  framed m -> (forall e, framed (h e)) -> framed (try_except m h).
Proof.
  intros Hm Hh w; unfold try_except.
  specialize (Hm w); destruct (m w) as [[a | e |] w']; simpl in *; auto.
  destruct (is_Exception e); simpl; auto.
  eapply frame_trans; [exact Hm | apply Hh].
Qed.

Lemma frame_thread_step te w : frame w (thread_step te w).
Proof.
  destruct te; simpl.
  - destruct (worker_is_alive (self w) && job_is_alive (self w)); frame_tac.
  - destruct (negb (worker_is_alive (self w)) && job_is_alive (self w)); frame_tac.
  - destruct (client_thread (self w)); try destruct (client_is_alive (self w)); frame_tac.
  - destruct (client_thread (self w)); frame_tac.
Qed.

Lemma frame_set_events w w' e : frame w w' -> frame w (set_events e w').
Proof. unfold frame; simpl; auto. Qed.

Lemma frame_poll_events evs w : frame w (poll_events evs w).
Proof.
  revert w; induction evs as [| ev evs IH]; intros w; simpl.
  - frame_tac.
  - destruct ev; try solve [frame_tac].
    eapply frame_trans; [apply frame_thread_step | apply IH].
Qed.

Lemma frame_next_request evs w : frame w (snd (next_request evs w)).
Proof.
  revert w; induction evs as [| ev evs IH]; intros w; simpl.
  - frame_tac.
  - destruct ev; try solve [frame_tac]; auto.
    eapply frame_trans; [apply frame_thread_step | apply IH].
Qed.

Lemma frame_join_events evs w : frame w (snd (join_events evs w)).
Proof.
  revert w; induction evs as [| ev evs IH]; intros w; simpl;
    destruct (client_thread (self w)); try solve [frame_tac].
  all: destruct ev;
    try (eapply frame_trans; [apply frame_thread_step | apply IH]);
    specialize (IH w); destruct (join_events evs w); simpl in *;
    apply frame_set_events; auto.
Qed.

Lemma framed_poll : framed poll.
Proof. intros w; apply frame_poll_events. Qed.

Lemma framed_recv_multipart : framed recv_multipart.
Proof.
  intros w; unfold recv_multipart.
  destruct (reply_pending (self w)); [frame_tac |].
  pose proof (frame_next_request (events w) w) as H.
  destruct (next_request (events w) w) as [[m | e |] w']; simpl in *; auto.
Qed.

Lemma framed_send_multipart t parts : framed (send_multipart t parts).
Proof. intros w; unfold send_multipart; destruct (reply_pending (self w)); frame_tac. Qed.

Lemma framed_client_thread_start : framed client_thread_start.
Proof. intros w; unfold client_thread_start; destruct (client_thread (self w)); frame_tac. Qed.

Lemma framed_client_thread_join : framed client_thread_join.
Proof.
  intros w; unfold client_thread_join; destruct (client_thread (self w));
    try solve [frame_tac]; apply frame_join_events.
Qed.

Lemma framed_modify_self (f : Job -> Job) :
  (forall j, (job_is_alive j = false -> job_is_alive (f j) = false) /\
             job_ip (f j) = job_ip j /\ job_address (f j) = job_address j /\
             ping_heartbeat_address (f j) = ping_heartbeat_address j) ->
  framed (modify (map_self f)).
Proof. intros Hf w; destruct (Hf (self w)) as (? & ? & ? & ?); frame_tac. Qed.

Lemma framed_new_client_thread : framed new_client_thread.
Proof. apply framed_modify_self; intros j; simpl; auto. Qed.

Lemma framed_set_client_is_alive b : framed (set_client_is_alive b).
Proof. apply framed_modify_self; intros j; simpl; auto. Qed.

Lemma framed_create_heartbeat_server : framed create_heartbeat_server.
Proof. intros w; frame_tac. Qed.

Lemma framed_sys_path_append x : framed (sys_path_append x).
Proof. intros w; frame_tac. Qed.

Lemma framed_set_sys_path r : framed (set_sys_path r).
Proof. intros w; frame_tac. Qed.

Lemma framed_open_write p code : framed (open_write p code).
Proof. intros w; unfold open_write; repeat case_match; frame_tac. Qed.

Lemma framed_mkdtemp : framed mkdtemp.
Proof. intros w; unfold mkdtemp; repeat case_match; frame_tac. Qed.

Lemma framed_call_outcome {A} (o : outcome A) : framed (call_outcome o).
Proof. destruct o; intros w; apply frame_refl. Qed.

Lemma framed_loads_pyfiles p : framed (loads_pyfiles p).
Proof. destruct p as [[] | | |]; intros w; apply frame_refl. Qed.

Lemma framed_loads_class p : framed (loads_class p).
Proof. destruct p; intros w; apply frame_refl. Qed.

Lemma framed_loads_call p : framed (loads_call p).
Proof. destruct p; intros w; apply frame_refl. Qed.

#[local] Hint Resolve framed_ret framed_raise framed_blocked framed_gets
  framed_poll framed_recv_multipart framed_send_multipart
  framed_client_thread_start framed_client_thread_join framed_new_client_thread
  framed_set_client_is_alive framed_create_heartbeat_server
  framed_sys_path_append framed_set_sys_path framed_open_write framed_mkdtemp
  framed_call_outcome framed_loads_pyfiles framed_loads_class framed_loads_call : framed.

Ltac framed_steps :=
  repeat (intros; lazymatch goal with
          | |- framed (bind _ _) => apply framed_bind
          | |- framed (try_except _ _) => apply framed_try_except
          | |- framed (if ?b then _ else _) => destruct b
          | |- framed (match ?x with _ => _ end) => destruct x
          | |- framed _ => eauto with framed
          end).

Lemma framed_write_pyfiles envdir pyfiles : framed (write_pyfiles envdir pyfiles).
Proof. induction pyfiles as [| [file code] rest IH]; simpl; framed_steps. Qed.

#[local] Hint Resolve framed_write_pyfiles : framed.

Lemma framed_wait_for_files : framed wait_for_files.
Proof. unfold wait_for_files; framed_steps. Qed.

Lemma framed_wait_for_connection : framed wait_for_connection.
Proof. unfold wait_for_connection; framed_steps. Qed.

Lemma framed_call_exception e : framed (call_exception e).
Proof. unfold call_exception; framed_steps. Qed.

#[local] Hint Resolve framed_wait_for_files framed_wait_for_connection
  framed_call_exception : framed.

Lemma framed_handle_request m : framed (handle_request m).
Proof. unfold handle_request; framed_steps. Qed.

#[local] Hint Resolve framed_handle_request : framed.

Lemma framed_single_task fuel obj : framed (single_task fuel obj).
Proof.
  revert obj; induction fuel as [| fuel IH]; intros obj; simpl; framed_steps.
Qed.

#[local] Hint Resolve framed_single_task : framed.

Lemma framed_serve fuel : framed (serve fuel).
Proof. unfold serve, reset_on_error; framed_steps. Qed.

Lemma framed_reset_job p : framed (reset_job p).
Proof.
  unfold reset_job.
  apply framed_bind; [auto with framed | intros _].
  apply framed_bind; [auto with framed | intros _].
  intros w; unfold frame; simpl; repeat split; auto; try lia.
  exists [binds (os w)]; simpl; repeat split.
  all: repeat constructor; try set_solver; lia.
Qed.

#[local] Hint Resolve framed_serve framed_reset_job : framed.

Lemma framed_run fuel : framed (run fuel).
Proof. induction fuel as [| fuel IH]; simpl; framed_steps. Qed.

(** ** Steps of the session driver *)

Lemma thread_step_spec te w :
  let w' := thread_step te w in
  trace w' = trace w /\ events w' = events w /\ os w' = os w /\
  reply_pending (self w') = reply_pending (self w) /\
  (client_is_alive (self w) = false -> client_is_alive (self w') = false).
Proof.
  destruct te; simpl; repeat (case_match; simpl); repeat split; auto; congruence.
Qed.

Lemma poll_events_spec evs w :
  let w' := poll_events evs w in
  trace w' = trace w /\ os w' = os w /\
  reply_pending (self w') = reply_pending (self w) /\
  (client_is_alive (self w) = false -> client_is_alive (self w') = false) /\
  events w' `suffix_of` evs.
Proof.
  revert w; induction evs as [| ev evs IH]; intros w; simpl.
  - repeat split; auto.
  - destruct ev as [m | te |]; simpl; try (repeat split; auto; fail).
    destruct (thread_step_spec te w) as (T1 & _ & T3 & T4 & T5).
    destruct (IH (thread_step te w)) as (I1 & I2 & I3 & I4 & I5).
    repeat split; try congruence; auto.
    apply suffix_cons_r; exact I5.
Qed.

Lemma next_request_spec evs w r w' :
  next_request evs w = (r, w') ->
  trace w' = trace w /\ os w' = os w /\
  reply_pending (self w') = reply_pending (self w) /\
  (client_is_alive (self w) = false -> client_is_alive (self w') = false) /\
  match r with
  | Ok m => (EvRequest m :: events w') `suffix_of` evs
  | _ => events w' `suffix_of` evs
  end.
Proof.
  revert w; induction evs as [| ev evs IH]; intros w H; simpl in H.
  - inversion H; subst; simpl; repeat split; auto.
  - destruct ev as [m | te |].
    + inversion H; subst; simpl; repeat split; auto.
    + destruct (thread_step_spec te w) as (T1 & _ & T3 & T4 & T5).
      destruct (IH _ H) as (I1 & I2 & I3 & I4 & I5).
      repeat split; try congruence; auto.
      destruct r; apply suffix_cons_r; exact I5.
    + destruct (IH _ H) as (I1 & I2 & I3 & I4 & I5).
      repeat split; auto.
      destruct r; apply suffix_cons_r; exact I5.
Qed.

Lemma join_events_spec evs w r w' :
  join_events evs w = (r, w') ->
  trace w' = trace w /\ os w' = os w /\
  reply_pending (self w') = reply_pending (self w).
Proof.
  revert w r w'; induction evs as [| ev evs IH]; intros w r w' H; simpl in H;
    destruct (client_thread (self w)); try (inversion H; subst; simpl; auto; fail).
  all: destruct ev as [m | te |].
  all: try (destruct (thread_step_spec te w) as (T1 & _ & T3 & T4 & _);
            destruct (IH _ _ _ H) as (I1 & I2 & I3); repeat split; congruence).
  all: destruct (join_events evs w) as [r0 w0] eqn:E; inversion H; subst; simpl;
       apply IH in E; tauto.
Qed.

(** One turn of the loop of [single_task]. *)
Lemma single_task_unfold fuel obj w :
  single_task fuel obj w =
    let wp := poll_events (events w) w in
    if job_is_alive (self wp) && client_is_alive (self wp) then
      match fuel with
      | O => (Blocked, wp)
      | S fuel' =>
          match recv_multipart wp with
          | (Ok m, wr) => bind (handle_request m) (fun _ => single_task fuel' obj) wr
          | (Raise e, wr) => (Raise e, wr)
          | (Blocked, wr) => (Blocked, wr)
          end
      end
    else (Ok tt, wp).
Proof.
  destruct fuel; simpl; unfold bind, poll, gets;
    destruct (job_is_alive _ && client_is_alive _); reflexivity.
Qed.

Lemma call_exception_spec e w :
  reply_pending (self w) = true ->
  exists w', call_exception e w = (Ok tt, w') /\
    (exists t parts, trace w' = AReply t parts :: trace w) /\
    reply_pending (self w') = false /\ client_is_alive (self w') = false /\
    events w' = events w /\ os w' = os w.
Proof.
  intros Hp; unfold call_exception, bind, set_client_is_alive, modify.
  destruct e; simpl; unfold send_multipart; simpl; rewrite Hp;
    eexists; (split; [reflexivity |]); simpl; repeat split; eauto.
Qed.

Lemma handle_request_answers m w :
  reply_pending (self w) = true ->
  call_raises_Exception (EvRequest m) ->
  m_tag m = CALL_TAG \/ m_tag m = KILLJOB_TAG ->
  exists w', handle_request m w = (Ok tt, w') /\
    (exists t parts, trace w' = AReply t parts :: trace w) /\
    reply_pending (self w') = false /\ events w' = events w /\ os w' = os w.
Proof.
  intros Hp Hc [Ht | Ht]; destruct m as [t p]; simpl in Ht; subst t;
    unfold handle_request; simpl.
  - unfold try_except, bind.
    destruct p as [files | c | n [r | e] |]; simpl in Hc |- *;
      try (destruct (call_exception_spec IndexError w Hp) as (w' & E & ?);
           rewrite E; exists w'; tauto).
    + unfold send_multipart; rewrite Hp; eexists; split; [reflexivity |].
      simpl; repeat split; eauto.
    + rewrite Hc.
      destruct (call_exception_spec e w Hp) as (w' & E & ?).
      rewrite E; exists w'; tauto.
  - unfold bind, send_multipart; rewrite Hp; simpl.
    eexists; split; [reflexivity |]; simpl; repeat split; eauto.
Qed.

Lemma handle_request_other m w :
  m_tag m <> CALL_TAG -> m_tag m <> KILLJOB_TAG ->
  handle_request m w = (Raise NotImplementedError, w).
Proof.
  intros H1 H2; unfold handle_request.
  destruct (m_tag m); try congruence; reflexivity.
Qed.

Lemma single_task_client_dead fuel obj w :
  client_is_alive (self w) = false ->
  single_task fuel obj w = (Ok tt, poll_events (events w) w).
Proof.
  intros Hc; rewrite single_task_unfold; cbv zeta.
  destruct (poll_events_spec (events w) w) as (_ & _ & _ & H & _).
  rewrite (H Hc), andb_false_r; reflexivity.
Qed.

Lemma reset_job_trace p w r w' :
  reset_job p w = (r, w') ->
  (trace w' = trace w \/ exists ij, trace w' = AMaster RESET_JOB_TAG ij :: trace w) /\
  reply_pending (self w') = reply_pending (self w).
Proof.
  unfold reset_job, bind, set_sys_path, modify, client_thread_join; simpl.
  destruct (client_thread (self w)).
  - intros H; inversion H; subst; simpl; auto.
  - destruct (join_events (events w) _) as [r0 w0] eqn:E.
    apply join_events_spec in E; simpl in E; destruct E as (E1 & _ & E3).
    destruct r0; intros H; inversion H; subst; simpl; try rewrite E1; try rewrite E3;
      simpl; eauto.
  - destruct (join_events (events w) _) as [r0 w0] eqn:E.
    apply join_events_spec in E; simpl in E; destruct E as (E1 & _ & E3).
    destruct r0; intros H; inversion H; subst; simpl; try rewrite E1; try rewrite E3;
      simpl; eauto.
Qed.

Lemma single_task_after_reply fuel obj w :
  client_is_alive (self w) = false ->
  exists w', single_task fuel obj w = (Ok tt, w') /\
    client_is_alive (self w') = false /\
    reply_pending (self w') = reply_pending (self w) /\ trace w' = trace w.
Proof.
  intros Hc; rewrite (single_task_client_dead fuel obj w Hc).
  destruct (poll_events_spec (events w) w) as (T & _ & P & C & _).
  eexists; split; [reflexivity |]; auto.
Qed.

Lemma Forall_suffix_of {A} (P : A -> Prop) l1 l2 :
  l1 `suffix_of` l2 -> Forall P l2 -> Forall P l1.
Proof. intros [k ->] H; apply Forall_app in H; tauto. Qed.

Lemma is_call_tag m : m_tag m <> CALL_TAG -> is_call m = false.
Proof. unfold is_call; destruct (m_tag m); congruence. Qed.

(** ** [sys.path] across [wait_for_files] *)

Lemma keeps_ret {A} (a : A) : keeps_sys_path (ret a).
Proof. intros w; auto. Qed.

Lemma keeps_raise {A} e : keeps_sys_path (@raise A e).
Proof. intros w; auto. Qed.

Lemma keeps_bind {A B} (m : M A) (k : A -> M B) :
  keeps_sys_path m -> (forall a, keeps_sys_path (k a)) -> keeps_sys_path (bind m k).
Proof.
  intros Hm Hk w; unfold bind; specialize (Hm w).
  destruct (m w) as [[a | e |] w'] eqn:E; simpl in *; auto.
  destruct Hm as [M1 M2]; destruct (Hk a w') as [H1 H2]; split; congruence.
Qed.

Lemma keeps_recv_multipart : keeps_sys_path recv_multipart.
Proof.
  intros w; unfold recv_multipart; destruct (reply_pending (self w)); auto.
  destruct (next_request (events w) w) as [r w'] eqn:E.
  destruct (next_request_spec _ _ _ _ E) as (_ & O & _).
  destruct r; simpl; rewrite O; auto.
Qed.

Lemma keeps_send_multipart t parts : keeps_sys_path (send_multipart t parts).
Proof. intros w; unfold send_multipart; destruct (reply_pending (self w)); auto. Qed.

Lemma keeps_loads_pyfiles p : keeps_sys_path (loads_pyfiles p).
Proof. destruct p as [[] | | |]; intros w; simpl; auto. Qed.

Lemma keeps_mkdtemp : keeps_sys_path mkdtemp.
Proof. intros w; unfold mkdtemp; repeat case_match; simpl; auto. Qed.

Lemma keeps_open_write p code : keeps_sys_path (open_write p code).
Proof. intros w; unfold open_write; repeat case_match; simpl; auto. Qed.

Lemma keeps_write_pyfiles d files : keeps_sys_path (write_pyfiles d files).
Proof.
  induction files as [| [k code] files IH]; simpl.
  - apply keeps_ret.
  - apply keeps_bind; [apply keeps_open_write | intros _; exact IH].
Qed.

Lemma keeps_wait_for_files : keeps_sys_path wait_for_files.
Proof.
  unfold wait_for_files; apply keeps_bind; [apply keeps_recv_multipart |]; intros m.
  destruct (decide _); [| apply keeps_raise].
  apply keeps_bind; [apply keeps_loads_pyfiles |]; intros f.
  apply keeps_bind; [apply keeps_mkdtemp |]; intros d.
  apply keeps_bind;
    [destruct f; [apply keeps_write_pyfiles | apply keeps_raise] |]; intros _.
  apply keeps_bind; [apply keeps_send_multipart |]; intros _.
  apply keeps_ret.
Qed.

(** ** File names *)





















(** ** Opening files *)






(** ** Writing the files of a bundle *)









(** ** Invariants of the flags *)

Lemma preserves_bind P {A B} (m : M A) (k : A -> M B) :
  preserves P m -> (forall a, preserves P (k a)) -> preserves P (bind m k).
Proof.
  intros Hm Hk w H; unfold bind; specialize (Hm w H).
  destruct (m w) as [[a | e |] w']; simpl in *; auto; apply Hk; exact Hm.
Qed.

Lemma preserves_try_except P {A} (m : M A) (h : exn -> M A) :
  preserves P m -> (forall e, preserves P (h e)) -> preserves P (try_except m h).
Proof.
  intros Hm Hh w H; unfold try_except; specialize (Hm w H).
  destruct (m w) as [[a | e |] w']; simpl in *; auto.
  destruct (is_Exception e); simpl; auto; apply Hh; exact Hm.
Qed.

Lemma preserves_keeps_flags F {A} (m : M A) : keeps_flags m -> preserves (inv F) m.
Proof. intros Hm w H; unfold inv; rewrite Hm; exact H. Qed.

Lemma keeps_flags_bind {A B} (m : M A) (k : A -> M B) :
  keeps_flags m -> (forall a, keeps_flags (k a)) -> keeps_flags (bind m k).
Proof.
  intros Hm Hk w; unfold bind; specialize (Hm w).
  destruct (m w) as [[a | e |] w']; simpl in *; auto; rewrite Hk; exact Hm.
Qed.

Ltac keeps_flags_tac :=
  intros w; unfold keeps_flags; simpl; repeat (case_match; simpl); reflexivity.

Lemma keeps_flags_ret {A} (a : A) : keeps_flags (ret a).
Proof. intros w; reflexivity. Qed.

Lemma keeps_flags_raise {A} e : keeps_flags (@raise A e).
Proof. intros w; reflexivity. Qed.

Lemma keeps_flags_blocked {A} : keeps_flags (@blocked A).
Proof. intros w; reflexivity. Qed.

Lemma keeps_flags_gets {A} (f : world -> A) : keeps_flags (gets f).
Proof. intros w; reflexivity. Qed.

Lemma keeps_flags_send_multipart t parts : keeps_flags (send_multipart t parts).
Proof. unfold send_multipart; keeps_flags_tac. Qed.

Lemma keeps_flags_call_outcome {A} (o : outcome A) : keeps_flags (call_outcome o).
Proof. destruct o; intros w; reflexivity. Qed.

Lemma keeps_flags_loads_pyfiles p : keeps_flags (loads_pyfiles p).
Proof. destruct p as [[] | | |]; intros w; reflexivity. Qed.

Lemma keeps_flags_loads_class p : keeps_flags (loads_class p).
Proof. destruct p; intros w; reflexivity. Qed.

Lemma keeps_flags_loads_call p : keeps_flags (loads_call p).
Proof. destruct p; intros w; reflexivity. Qed.

Lemma keeps_flags_open_write p code : keeps_flags (open_write p code).
Proof. unfold open_write; keeps_flags_tac. Qed.

Lemma keeps_flags_mkdtemp : keeps_flags mkdtemp.
Proof. unfold mkdtemp; keeps_flags_tac. Qed.

Lemma keeps_flags_sys_path_append x : keeps_flags (sys_path_append x).
Proof. intros w; reflexivity. Qed.

Lemma keeps_flags_set_sys_path r : keeps_flags (set_sys_path r).
Proof. intros w; reflexivity. Qed.

Lemma keeps_flags_create_heartbeat_server : keeps_flags create_heartbeat_server.
Proof. intros w; reflexivity. Qed.

Lemma keeps_flags_master_send t ij : keeps_flags (master_send t ij).
Proof. intros w; reflexivity. Qed.

Lemma keeps_flags_write_pyfiles d files : keeps_flags (write_pyfiles d files).
Proof.
  induction files as [| [k code] files IH]; simpl.
  - apply keeps_flags_ret.
  - apply keeps_flags_bind; [apply keeps_flags_open_write | intros _; exact IH].
Qed.

Create HintDb flags.
#[local] Hint Resolve keeps_flags_ret keeps_flags_raise keeps_flags_blocked
  keeps_flags_gets keeps_flags_send_multipart keeps_flags_call_outcome
  keeps_flags_loads_pyfiles keeps_flags_loads_class keeps_flags_loads_call
  keeps_flags_open_write keeps_flags_mkdtemp keeps_flags_sys_path_append
  keeps_flags_set_sys_path keeps_flags_create_heartbeat_server
  keeps_flags_master_send keeps_flags_write_pyfiles : flags.
#[local] Hint Resolve preserves_keeps_flags : flags.

Section FlagInvariant.

Variable F : bool * bool * bool * thread_status -> Prop.

(** The heartbeat threads keep [F]. *)
Hypothesis thread_step_inv : forall te w, inv F w -> inv F (thread_step te w).

Lemma inv_poll_events evs w : inv F w -> inv F (poll_events evs w).
Proof.
  revert w; induction evs as [| [m | te |] evs IH]; intros w H; simpl; auto.
Qed.

Lemma inv_next_request evs w : inv F w -> inv F (snd (next_request evs w)).
Proof.
  revert w; induction evs as [| [m | te |] evs IH]; intros w H; simpl; auto.
Qed.

Lemma inv_join_events evs w : inv F w -> inv F (snd (join_events evs w)).
Proof.
  revert w; induction evs as [| ev evs IH]; intros w H; simpl;
    destruct (client_thread (self w)); auto;
    destruct ev as [m | te |]; auto;
    specialize (IH w H); destruct (join_events evs w); exact IH.
Qed.

Lemma preserves_poll : preserves (inv F) poll.
Proof. intros w H; apply inv_poll_events; exact H. Qed.

Lemma preserves_recv_multipart : preserves (inv F) recv_multipart.
Proof.
  intros w H; unfold recv_multipart; destruct (reply_pending (self w)); [exact H |].
  pose proof (inv_next_request (events w) w H) as H'.
  destruct (next_request (events w) w) as [[m | e |] w']; exact H'.
Qed.

Lemma preserves_client_thread_join : preserves (inv F) client_thread_join.
Proof.
  intros w H; unfold client_thread_join; destruct (client_thread (self w)); auto;
    apply inv_join_events; exact H.
Qed.

Ltac inv_steps :=
  repeat (intros; lazymatch goal with
          | |- preserves _ (bind _ _) => apply preserves_bind
          | |- preserves _ (try_except _ _) => apply preserves_try_except
          | |- preserves _ (if ?b then _ else _) => destruct b
          | |- preserves _ (match ?x with _ => _ end) => destruct x
          | |- preserves _ _ =>
              first [ apply preserves_poll | apply preserves_recv_multipart
                    | apply preserves_client_thread_join | assumption
                    | eauto with flags ]
          end).

Lemma preserves_wait_for_files : preserves (inv F) wait_for_files.
Proof. unfold wait_for_files; inv_steps. Qed.

#[local] Hint Resolve preserves_wait_for_files : flags.

(** [Job] writes [client_is_alive] only to [false]. *)
Hypothesis set_client_dead_inv : preserves (inv F) (set_client_is_alive false).

Lemma preserves_wait_for_connection : preserves (inv F) wait_for_connection.
Proof. unfold wait_for_connection; inv_steps. Qed.

#[local] Hint Resolve preserves_wait_for_connection : flags.

Lemma preserves_call_exception e : preserves (inv F) (call_exception e).
Proof. unfold call_exception; inv_steps. Qed.

Lemma preserves_handle_request m : preserves (inv F) (handle_request m).
Proof. unfold handle_request; inv_steps; apply preserves_call_exception. Qed.

#[local] Hint Resolve preserves_call_exception preserves_handle_request : flags.

Lemma preserves_single_task fuel obj : preserves (inv F) (single_task fuel obj).
Proof.
  revert obj; induction fuel as [| fuel IH]; intros obj; simpl; inv_steps;
    apply preserves_handle_request.
Qed.

#[local] Hint Resolve preserves_single_task : flags.

Lemma preserves_serve fuel : preserves (inv F) (serve fuel).
Proof.
  unfold serve, reset_on_error; inv_steps.
Qed.

#[local] Hint Resolve preserves_serve : flags.

Hypothesis client_thread_start_inv : preserves (inv F) client_thread_start.
Hypothesis new_client_thread_inv : preserves (inv F) new_client_thread.

Lemma preserves_reset_job p : preserves (inv F) (reset_job p).
Proof. unfold reset_job; inv_steps. Qed.

#[local] Hint Resolve preserves_reset_job : flags.

Lemma preserves_run fuel : preserves (inv F) (run fuel).
Proof.
  induction fuel as [| fuel IH]; simpl; inv_steps.
Qed.

End FlagInvariant.

(** ** The flag invariant of the client heartbeat thread *)

Ltac flag_tac :=
  unfold preserves, inv, flags, finished_client_dead in *; intros; simpl in *;
  repeat (case_match; simpl in *); subst; simpl in *; auto; try congruence.

Lemma thread_step_finished_client_dead te w :
  inv finished_client_dead w -> inv finished_client_dead (thread_step te w).
Proof. destruct te; flag_tac. Qed.

Lemma set_client_dead_finished_client_dead :
  preserves (inv finished_client_dead) (set_client_is_alive false).
Proof. flag_tac. Qed.

Lemma client_thread_start_finished_client_dead :
  preserves (inv finished_client_dead) client_thread_start.
Proof. unfold client_thread_start; flag_tac. Qed.

Lemma new_client_thread_finished_client_dead :
  preserves (inv finished_client_dead) new_client_thread.
Proof. flag_tac. Qed.

(** * Claims *)

(** ** C9 *)

(** C9: [job_is_alive] is [true] after [Job.__init__], and no action of
    the job makes it [true] again once it is [false]: no action of a
    heartbeat thread, and no part of the main thread's [run], each of
    which runs its code from a state where the flag is [false]: the
    loading of the bundle, the update of [sys.path], the start of the
    client heartbeat thread, the loading of the class, the handling of a
    request, the serving of a session and the reset; and [run] itself. *)
Theorem job_is_alive_monotone :
  (forall ip pid o evs, job_is_alive (self (Job_init ip pid o evs)) = true) /\
  (forall te w, job_is_alive (self w) = false ->
                job_is_alive (self (thread_step te w)) = false) /\
  (forall w, job_is_alive (self w) = false ->
     job_is_alive (self (snd (wait_for_files w))) = false /\
     (forall x, job_is_alive (self (snd (sys_path_append x w))) = false) /\
     job_is_alive (self (snd (client_thread_start w))) = false /\
     job_is_alive (self (snd (wait_for_connection w))) = false /\
     (forall m, job_is_alive (self (snd (handle_request m w))) = false) /\
     (forall fuel obj, job_is_alive (self (snd (single_task fuel obj w))) = false) /\
     (forall fuel, job_is_alive (self (snd (serve fuel w))) = false) /\
     (forall p, job_is_alive (self (snd (reset_job p w))) = false) /\
     (forall fuel, job_is_alive (self (snd (run fuel w))) = false)).
Proof.
  split; [reflexivity |]; split.
  - intros te w H; exact (proj1 (frame_thread_step te w) H).
  - intros w H; repeat split; intros;
      match goal with
      | |- job_is_alive (self (snd (?m w))) = false =>
          let Hf := fresh in
          assert (Hf : framed m) by (apply framed_run || eauto with framed);
          exact (proj1 (Hf w) H)
      end.
Qed.

Lemma job_is_alive_monotone_witness :
  job_is_alive (self (demo_world distinct_ports [])) = true /\
  job_is_alive (self (snd (wait_for_files (thread_step WorkerExit (thread_step WorkerTimeout
                 (demo_world distinct_ports [EvRequest m_files])))))) = false.
Proof.
  split.
  - apply (proj1 job_is_alive_monotone).
  - apply (proj2 (proj2 job_is_alive_monotone)); reflexivity.
Defined.

(** ** C6 *)

(** C6 (amended): every message a run of the job sends the master is a
    [RESET_JOB] whose [InitializedJob] has a null worker heartbeat
    address, worker address and pid, carries the request and ping
    addresses bound at startup (the ping server is never bound again),
    and as client heartbeat address the address of the server bound for
    that reset: each announcement has its own bind [k], made after the
    four binds of startup, at the port [port_of o k] the OS chooses. *)
Theorem reset_job_InitializedJob ip pid o evs fuel :
  exists ks : list nat,
    masters (trace (snd (run fuel (Job_init ip pid o evs)))) =
      map (fun k => (RESET_JOB_TAG,
             {| Message.job_address := Addr ip (port_of o (binds o));
                Message.worker_heartbeat_address := None;
                Message.client_heartbeat_address := Addr ip (port_of o k);
                Message.ping_heartbeat_address := Addr ip (port_of o (binds o + 1));
                Message.worker_address := None;
                Message.pid := None |})) ks /\
    NoDup ks /\ Forall (fun k => binds o + 4 <= k) ks.
Proof.
  destruct (framed_run fuel (Job_init ip pid o evs))
    as (_ & _ & _ & _ & _ & _ & ks & K & N & F).
  exists ks; split; [| split; auto].
  - rewrite K; simpl; rewrite app_nil_r.
    apply List.map_ext; intros k; unfold reset_announcement; simpl.
    rewrite Nat.add_0_r; reflexivity.
  - eapply Forall_impl; [exact F |]; simpl; intros k Hk; lia.
Qed.

(** C6: the four servers of startup get four different ports, and the
    random port of the server bound for the first reset is that of none
    of the three servers still open (the request socket, the ping and
    the worker heartbeat servers), but it is the port of the first
    session's client heartbeat server, whose socket the thread closed
    when it finished, before [join] returned: the worker was told of
    that address at startup, and the master receives it again. *)
Lemma reset_job_same_client_address :
  let w := snd (run 2 (demo_world reused_port
                 [EvRequest m_files; EvRequest m_init; EvRequest m_kill;
                  EvThread ClientProbe])) in
  NoDup (map reused_port [0; 1; 2; 3]) /\
  Forall (fun k => reused_port 4 <> reused_port k) [0; 1; 2] /\
  master_client_addrs (trace w) = [Addr "10.0.0.1" 50003] /\
  worker_client_addrs (trace w) = [Addr "10.0.0.1" 50003].
Proof.
  split; [apply (bool_decide_unpack _); vm_compute; exact I |].
  split; [repeat constructor; vm_compute; discriminate |].
  split; vm_compute; reflexivity.
Qed.

(** ** C1 *)

(** C1: the worker heartbeat times out while the main thread waits for
    the next request of a session; the next [CALL] is served, the client
    then goes silent, and the job sends [RESET_JOB] to the master before
    [run] returns. *)
Lemma worker_loss_sends_reset_job :
  let r := run 3 (demo_world distinct_ports
                 [EvRequest m_files; EvRequest m_init; EvYield;
                  EvThread WorkerTimeout; EvThread WorkerExit;
                  EvRequest (m_call (Returns "42"));
                  EvThread ClientTimeout]) in
  fst r = Ok tt /\ job_is_alive (self (snd r)) = false /\
  worker_is_alive (self (snd r)) = false /\
  sent_reset_job (trace (snd r)) = true.
Proof. vm_compute; repeat split. Qed.

(** ** C7 *)

(** C7: while the first session is served, [sys.path] holds the scratch
    directory after the entries it had before. *)
Lemma sys_path_scratch_dir_last :
  heap (os (snd (run 1 (demo_world distinct_ports [EvRequest m_files]))))
    !! 0 = Some [["usr"; "lib"; "python3"]; ["tmp"; "ajob"]].
Proof. vm_compute; reflexivity. Qed.

(** ** C2 *)

(** C2: after a session ended by [KILLJOB] and its reset, [sys.path]
    names the same list object as before the session, and that list
    still holds the session's scratch directory. *)
Lemma sys_path_not_restored :
  let w0 := demo_world distinct_ports
              [EvRequest m_files; EvRequest m_init; EvRequest m_kill;
               EvThread ClientProbe] in
  let w := snd (run 2 w0) in
  sent_reset_job (trace w) = true /\
  sys_path (os w) = sys_path (os w0) /\
  heap (os w0) !! sys_path (os w0) = Some [["usr"; "lib"; "python3"]] /\
  heap (os w) !! sys_path (os w) = Some [["usr"; "lib"; "python3"]; ["tmp"; "ajob"]].
Proof. vm_compute; repeat split. Qed.

(** ** C3 *)

(** C3: a first message of a session whose tag is not [SEND_FILE] makes
    [wait_for_files] raise [NotImplementedError] outside the [try] of
    [Job.run]: the exception leaves [run], which ends the process, after
    the request was received and before any reply or any message to the
    master. *)
Theorem wait_for_files_violation_escapes fuel w m rest :
  job_is_alive (self w) = true ->
  reply_pending (self w) = false ->
  events w = EvRequest m :: rest ->
  m_tag m <> SEND_FILE_TAG ->
  exists w', run (S fuel) w = (Raise NotImplementedError, w') /\
    trace w' = ARecv m :: trace w /\ masters (trace w') = masters (trace w).
Proof.
  intros Hj Hp He Ht.
  cbn [run]; unfold bind at 1, poll; rewrite He; simpl.
  unfold bind at 1, gets; simpl; rewrite Hj.
  unfold bind at 1, wait_for_files, bind at 1, recv_multipart; simpl.
  rewrite Hp; simpl.
  destruct (decide (m_tag m = SEND_FILE_TAG)); [contradiction |].
  eexists; split; [reflexivity |]; split; reflexivity.
Qed.

Lemma wait_for_files_violation_escapes_witness :
  exists w', run 1 (demo_world distinct_ports [EvRequest m_init]) =
               (Raise NotImplementedError, w') /\
    trace w' = ARecv m_init :: trace (demo_world distinct_ports [EvRequest m_init]) /\
    masters (trace w') = masters (trace (demo_world distinct_ports [EvRequest m_init])).
Proof.
  apply (wait_for_files_violation_escapes 0 _ m_init []);
    [reflexivity | reflexivity | reflexivity | discriminate].
Defined.

(** ** C4 *)

(** C4: a [CALL] whose dispatch raises [SystemExit] is not answered: the
    exception is no [Exception], the [except] clause lets it through, and
    it leaves [run] with the request received and unanswered. *)
Lemma call_SystemExit_unanswered :
  let r := run 2 (demo_world distinct_ports
                 [EvRequest m_files; EvRequest m_init;
                  EvRequest (m_call (Raises (SystemExit "0")))]) in
  fst r = Raise (SystemExit "0") /\
  head (trace (snd r)) = Some (ARecv (m_call (Raises (SystemExit "0")))) /\
  reply_pending (self (snd r)) = true.
Proof. vm_compute; repeat split. Qed.

(** C4 (amended): a [CALL] whose dispatch raises an exception [e] of
    class [Exception] is answered by exactly one reply, whose tag follows
    the exact class of [e]: [ATTRIBUTE_EXCEPTION], [SERIALIZE_EXCEPTION]
    or [DESERIALIZE_EXCEPTION] with [str(e)], and [EXCEPTION] with
    [str(e)] and the traceback for any other class; [client_is_alive] is
    then [false] and [single_task] returns. *)
Theorem call_exception_reply fuel obj w name e rest :
  job_is_alive (self w) = true ->
  client_is_alive (self w) = true ->
  reply_pending (self w) = false ->
  events w = EvRequest (Msg CALL_TAG (PCall name (Raises e))) :: rest ->
  is_Exception e = true ->
  exists w', single_task (S fuel) obj w = (Ok tt, w') /\
    client_is_alive (self w') = false /\ reply_pending (self w') = false /\
    trace w' =
      AReply (match e with
              | AttributeError _ => ATTRIBUTE_EXCEPTION_TAG
              | SerializeError _ => SERIALIZE_EXCEPTION_TAG
              | DeserializeError _ => DESERIALIZE_EXCEPTION_TAG
              | _ => EXCEPTION_TAG
              end)
             (match e with
              | AttributeError _ | SerializeError _ | DeserializeError _ => [str_exn e]
              | _ => [str_exn e ++ traceback_sep ++ format_exc e]
              end)
        :: ARecv (Msg CALL_TAG (PCall name (Raises e))) :: trace w.
Proof.
  intros Hj Hc Hp He Hx.
  rewrite single_task_unfold; cbv zeta; rewrite He; simpl; rewrite Hj, Hc; simpl.
  unfold recv_multipart; simpl; rewrite Hp; simpl.
  unfold bind at 1, handle_request; simpl.
  unfold try_except, bind, call_outcome, raise; simpl; rewrite Hx.
  unfold call_exception, set_client_is_alive, modify, bind, send_multipart.
  destruct e; try discriminate; simpl;
    match goal with
    | |- context [single_task fuel obj ?w2] =>
        destruct (single_task_after_reply fuel obj w2) as (w' & E & C & P & T);
          [reflexivity |]
    end;
    rewrite E; exists w'; rewrite C, P, T; auto.
Qed.

Lemma call_exception_reply_witness :
  let w := serving_world [EvRequest (m_call (Raises (AttributeError "no f")))] in
  exists w', single_task 1 tt w = (Ok tt, w') /\
    client_is_alive (self w') = false /\ reply_pending (self w') = false /\
    trace w' = AReply ATTRIBUTE_EXCEPTION_TAG ["no f"]
                 :: ARecv (m_call (Raises (AttributeError "no f"))) :: trace w.
Proof.
  intros w.
  apply (call_exception_reply 0 tt w "f" (AttributeError "no f") []);
    vm_compute; reflexivity.
Defined.

(** ** C10 *)

(** C10: at any point of the serve-calls state (after any number of
    requests served and heartbeat events), a request whose tag is neither
    [CALL] nor [KILLJOB] makes [single_task] raise [NotImplementedError]
    once it is received; the exception leaves [single_task] and the
    [try] block of [Job.run], whose [except Exception] catches it, so the
    session fails.  The request stays unanswered (the REP socket still
    owes a reply), and the reset that follows sends nothing on the
    request endpoint: at most the [RESET_JOB] to the master. *)
Theorem unknown_tag_unanswered fuel obj w m :
  let wp := poll_events (events w) w in
  job_is_alive (self wp) = true ->
  client_is_alive (self wp) = true ->
  reply_pending (self w) = false ->
  fst (next_request (events wp) wp) = Ok m ->
  m_tag m <> CALL_TAG -> m_tag m <> KILLJOB_TAG ->
  exists w1, single_task (S fuel) obj w = (Raise NotImplementedError, w1) /\
    try_except (single_task (S fuel) obj) reset_on_error w = (Ok tt, w1) /\
    trace w1 = ARecv m :: trace w /\ reply_pending (self w1) = true /\
    forall p r w3, reset_job p w1 = (r, w3) ->
      reply_pending (self w3) = true /\
      (trace w3 = trace w1 \/ exists ij, trace w3 = AMaster RESET_JOB_TAG ij :: trace w1).
Proof.
  intros wp Hj Hc Hp Hn H1 H2.
  destruct (poll_events_spec (events w) w) as (T0 & _ & P0 & _ & _).
  fold wp in T0, P0.
  destruct (next_request (events wp) wp) as [r w2] eqn:En; simpl in Hn; subst r.
  destruct (next_request_spec _ _ _ _ En) as (T2 & _ & P2 & _ & _).
  set (w1 := emit (ARecv m) (map_self (with_reply_pending true) w2)).
  assert (Hst : single_task (S fuel) obj w = (Raise NotImplementedError, w1)).
  { rewrite single_task_unfold; cbv zeta; fold wp; rewrite Hj, Hc; simpl.
    unfold recv_multipart; rewrite P0, Hp, En; simpl.
    unfold bind; rewrite handle_request_other by assumption; reflexivity. }
  exists w1; split; [exact Hst |]; split.
  - unfold try_except; rewrite Hst; reflexivity.
  - split; [simpl; congruence |]; split; [reflexivity |].
    intros p r w3 Hr; apply reset_job_trace in Hr; simpl in Hr; tauto.
Qed.

Lemma unknown_tag_unanswered_witness :
  let w := snd (single_task 1 tt
             (serving_world [EvRequest (m_call (Returns "1")); EvThread ClientProbe;
                             EvRequest (Msg (UNKNOWN_TAG "PING") PNone)])) in
  exists w1, single_task 1 tt w = (Raise NotImplementedError, w1) /\
    reply_pending (self w1) = true.
Proof.
  intros w.
  destruct (unknown_tag_unanswered 0 tt w (Msg (UNKNOWN_TAG "PING") PNone))
    as (w1 & E & _ & _ & P & _);
    [vm_compute; reflexivity | vm_compute; reflexivity | vm_compute; reflexivity
    | vm_compute; reflexivity | discriminate | discriminate |].
  exists w1; split; assumption.
Defined.

(** ** C5 *)

(** C5: a [KeyboardInterrupt] raised by the dispatch of a [CALL] is no
    [Exception]; the request is left without a reply. *)
Lemma call_KeyboardInterrupt_unanswered :
  let r := run 2 (demo_world distinct_ports
                 [EvRequest m_files; EvRequest m_init;
                  EvRequest (m_call (Raises KeyboardInterrupt))]) in
  fst r = Raise KeyboardInterrupt /\
  head (trace (snd r)) = Some (ARecv (m_call (Raises KeyboardInterrupt))) /\
  reply_pending (self (snd r)) = true.
Proof. vm_compute; repeat split. Qed.

(** C5 (amended): when no dispatch of a [CALL] raises an exception outside
    the class [Exception], every [CALL] that [single_task] receives is
    followed at once by exactly one reply, before the next receive or
    any other reply; the actions [single_task] adds form a sequence
    [seg] (newest first) of that shape. *)
Theorem single_task_answers_calls fuel obj w :
  reply_pending (self w) = false ->
  Forall call_raises_Exception (events w) ->
  exists seg, trace (snd (single_task fuel obj w)) = app seg (trace w) /\
    answered (rev seg) = true /\ no_leading_reply (rev seg) = true.
Proof.
  revert w; induction fuel as [| fuel IH]; intros w Hp Hf;
    rewrite single_task_unfold; cbv zeta;
    destruct (poll_events_spec (events w) w) as (T & _ & P & _ & S);
    set (wp := poll_events (events w) w) in *.
  - destruct (_ && _); exists []; simpl; rewrite T; auto.
  - destruct (_ && _); [| exists []; simpl; rewrite T; auto].
    unfold recv_multipart; rewrite P, Hp.
    destruct (next_request (events wp) wp) as [r wr] eqn:E.
    destruct (next_request_spec _ _ _ _ E) as (T2 & _ & P2 & _ & S2).
    destruct r as [m | e |]; simpl;
      try (exists []; simpl; rewrite T2, T; auto; fail).
    assert (Hf1 : Forall call_raises_Exception (EvRequest m :: events wr)).
    { eapply Forall_suffix_of; [exact S2 |].
      eapply Forall_suffix_of; [exact S | exact Hf]. }
    set (w1 := emit (ARecv m) (map_self (with_reply_pending true) wr)).
    unfold bind.
    destruct (decide (m_tag m = CALL_TAG \/ m_tag m = KILLJOB_TAG)) as [Ht | Ht].
    + destruct (handle_request_answers m w1 eq_refl (Forall_inv Hf1) Ht)
        as (w' & Eh & (t & parts & Tw') & Pw' & Ew' & _).
      rewrite Eh.
      destruct (IH w' Pw') as (seg & Ts & A & N).
      { rewrite Ew'; exact (Forall_inv_tail Hf1). }
      exists (app seg [AReply t parts; ARecv m]); split; [| split].
      * rewrite Ts, Tw'; simpl; rewrite T2, T, <- app_assoc; reflexivity.
      * rewrite rev_app_distr; simpl.
        destruct (is_call m); simpl; [rewrite N, A |]; exact A || reflexivity.
      * rewrite rev_app_distr; reflexivity.
    + rewrite handle_request_other by tauto; simpl.
      exists [ARecv m]; simpl; rewrite T2, T; split; [reflexivity |].
      rewrite is_call_tag by tauto; auto.
Qed.

Lemma single_task_answers_calls_witness :
  let w := serving_world [EvRequest (m_call (Returns "1"));
                          EvRequest (m_call (Raises (SerializeError "bad")))] in
  exists seg, trace (snd (single_task 3 tt w)) = app seg (trace w) /\
    answered (rev seg) = true /\ no_leading_reply (rev seg) = true.
Proof.
  intros w; apply single_task_answers_calls; vm_compute; [reflexivity |].
  repeat constructor.
Defined.

(** ** C7 (amended) *)

(** C7 (amended): once [wait_for_files] has accepted a bundle into the
    scratch directory [envdir], [sys.path.append(envdir)] leaves [sys.path]
    naming the same list object and puts [envdir] after all the entries
    that list had: modules already on the path shadow the bundle's. *)
Theorem sys_path_append_envdir w envdir w1 l :
  wait_for_files w = (Ok envdir, w1) ->
  heap (os w) !! sys_path (os w) = Some l ->
  let w2 := snd (sys_path_append envdir w1) in
  sys_path (os w2) = sys_path (os w) /\
  heap (os w2) !! sys_path (os w2) = Some (app l [envdir]).
Proof.
  intros E Hl; simpl.
  destruct (keeps_wait_for_files w) as [H1 H2]; rewrite E in H1, H2; simpl in H1, H2.
  rewrite H1, H2, Hl; split; [reflexivity |]; simpl.
  apply lookup_insert_eq.
Qed.

Lemma sys_path_append_envdir_witness :
  let w := demo_world distinct_ports [EvRequest m_files] in
  sys_path (os (snd (sys_path_append ["tmp"; "ajob"] (snd (wait_for_files w))))) = 0 /\
  heap (os (snd (sys_path_append ["tmp"; "ajob"] (snd (wait_for_files w))))) !! 0 =
    Some [["usr"; "lib"; "python3"]; ["tmp"; "ajob"]].
Proof.
  intros w.
  destruct (sys_path_append_envdir w ["tmp"; "ajob"] (snd (wait_for_files w))
              [["usr"; "lib"; "python3"]]) as [H1 H2];
    [vm_compute; reflexivity | vm_compute; reflexivity |].
  rewrite H1 in H2 |- *; split; [reflexivity | exact H2].
Defined.

(** ** C8 *)





(** * Further properties *)

(** ** Helper lemmas *)

Lemma join_events_finished evs w w' :
  join_events evs w = (Ok tt, w') -> client_thread (self w') = Finished.
Proof.
  revert w w'; induction evs as [| ev evs IH]; intros w w' H; simpl in H;
    destruct (client_thread (self w)) eqn:Ht;
    try (inversion H; subst; simpl; assumption).
  all: destruct ev as [m | te |]; try (apply IH in H; exact H).
  all: destruct (join_events evs w) as [r0 w0] eqn:E; inversion H; subst;
       apply IH in E; exact E.
Qed.

(** ** Whole runs *)

(** X3: from [Job.__init__] on, at every point of [Job.run], once the
    client heartbeat thread has finished, [client_is_alive] is [False]. *)
Theorem run_finished_client_dead ip pid o evs fuel :
  let j := self (snd (run fuel (Job_init ip pid o evs))) in
  client_thread j = Finished -> client_is_alive j = false.
Proof.
  exact (preserves_run finished_client_dead thread_step_finished_client_dead
           set_client_dead_finished_client_dead client_thread_start_finished_client_dead
           new_client_thread_finished_client_dead fuel (Job_init ip pid o evs)
           (fun H => eq_refl)).
Qed.

Lemma run_finished_client_dead_witness :
  let j := self (snd (run 2 (Job_init "10.0.0.1" 4242 (demo_os distinct_ports)
                               [EvRequest m_files; EvRequest m_init; EvYield;
                                EvThread ClientTimeout]))) in
  client_thread j = Finished /\ client_is_alive j = false.
Proof.
  assert (H : client_thread (self (snd (run 2 (Job_init "10.0.0.1" 4242
                (demo_os distinct_ports)
                [EvRequest m_files; EvRequest m_init; EvYield; EvThread ClientTimeout]))))
              = Finished) by (vm_compute; reflexivity).
  cbv zeta; split; [exact H |].
  exact (run_finished_client_dead "10.0.0.1" 4242 (demo_os distinct_ports)
           [EvRequest m_files; EvRequest m_init; EvYield; EvThread ClientTimeout] 2 H).
Defined.

(** X4: when the reset of [Job.run] completes, the client heartbeat
    thread it joined has finished with [client_is_alive] [False], and the
    thread that replaces it is not started yet. *)
Theorem reset_job_new_client_thread p w w1 :
  finished_client_dead (flags (self w)) ->
  reset_job p w = (Ok tt, w1) ->
  client_thread (self w1) = NotStarted /\ client_is_alive (self w1) = false.
Proof.
  intros Hf.
  unfold reset_job, bind at 1, set_sys_path, modify, bind at 1, client_thread_join; simpl.
  destruct (client_thread (self w)) eqn:Ht; [intros H; discriminate H | |].
  all: match goal with
       | |- context [join_events ?evs ?w0] =>
           pose proof (inv_join_events finished_client_dead
                         thread_step_finished_client_dead evs w0 Hf) as Hi;
           destruct (join_events evs w0) as [[[] | e |] w2] eqn:E; simpl;
           intros H; inversion H; subst; clear H
       end.
  all: apply join_events_finished in E.
  all: unfold inv, flags, finished_client_dead in Hi; simpl in Hi.
  all: split; [reflexivity | simpl; exact (Hi E)].
Qed.

Lemma reset_job_new_client_thread_witness :
  let w := map_self (with_client_thread Running)
             (map_self (with_client_is_alive true)
                (demo_world distinct_ports [EvThread ClientTimeout])) in
  reset_job 0 w = (Ok tt, snd (reset_job 0 w)) /\
  client_thread (self (snd (reset_job 0 w))) = NotStarted /\
  client_is_alive (self (snd (reset_job 0 w))) = false.
Proof.
  intros w.
  assert (E : reset_job 0 w = (Ok tt, snd (reset_job 0 w))) by (vm_compute; reflexivity).
  split; [exact E |].
  apply (reset_job_new_client_thread 0 w (snd (reset_job 0 w))); [| exact E].
  vm_compute; discriminate.
Defined.

(** X6: a request that finds the request socket still owing a reply at
    the top of [Job.run]'s loop (the previous session left a request
    unanswered) makes [wait_for_files]'s [recv_multipart] raise
    [ZMQError]; no handler catches it and [Job.run] ends with it. *)
Theorem run_unanswered_request fuel w :
  reply_pending (self w) = true ->
  job_is_alive (self (poll_events (events w) w)) = true ->
  run (S fuel) w = (Raise (ZMQError EFSM), poll_events (events w) w).
Proof.
  intros Hp Hj.
  destruct (poll_events_spec (events w) w) as (_ & _ & P & _).
  simpl; unfold bind at 1, poll, bind at 1, gets; rewrite Hj.
  unfold bind at 1, wait_for_files, bind at 1, recv_multipart; rewrite P, Hp.
  reflexivity.
Qed.

Lemma run_unanswered_request_witness :
  let w := map_self (with_reply_pending true) (demo_world distinct_ports []) in
  reply_pending (self w) = true /\
  run 1 w = (Raise (ZMQError EFSM), poll_events (events w) w).
Proof.
  intros w; split; [reflexivity |].
  apply run_unanswered_request; reflexivity.
Defined.

(** ** Sessions *)

(** X7: when the first request of a session is an [INIT_OBJECT] whose
    constructor returns an object, [wait_for_connection] answers it with
    an empty [NORMAL] reply and [serve] goes on with [single_task] on that
    object, with the job's flags as they were. *)
Theorem serve_init_object fuel w o rest :
  reply_pending (self w) = false ->
  events w = EvRequest (Msg INIT_OBJECT_TAG (PClass (Returns o))) :: rest ->
  exists w1, serve fuel w = try_except (single_task fuel o) reset_on_error w1 /\
    trace w1 = AReply NORMAL_TAG [] :: ARecv (Msg INIT_OBJECT_TAG (PClass (Returns o)))
                 :: trace w /\
    self w1 = self w /\ events w1 = rest /\ os w1 = os w.
Proof.
  intros Hp He.
  unfold serve, try_except at 1, bind at 1, wait_for_connection, bind at 1, recv_multipart.
  rewrite Hp, He; simpl.
  unfold bind, loads_class, call_outcome, ret, try_except, send_multipart; simpl.
  eexists; split; [reflexivity |]; simpl.
  split; [reflexivity |]; split; [| split; reflexivity].
  destruct (self w); simpl in Hp |- *; subst; reflexivity.
Qed.

Lemma serve_init_object_witness :
  let w := map_self (with_client_is_alive true) (demo_world distinct_ports [EvRequest m_init]) in
  exists w1, serve 0 w = try_except (single_task 0 tt) reset_on_error w1 /\
    trace w1 = AReply NORMAL_TAG [] :: ARecv m_init :: trace w.
Proof.
  intros w.
  destruct (serve_init_object 0 w tt [] eq_refl eq_refl) as (w1 & E & T & _).
  exists w1; split; assumption.
Defined.

(** X8: when the constructor of an [INIT_OBJECT] raises an exception [e]
    of class [Exception], [wait_for_connection] answers with [EXCEPTION]
    and [str(e)] followed by the traceback, sets [client_is_alive] to
    [False] and returns [None]; the [assert] in [Job.run] fails, its
    [except Exception] catches the [AssertionError], and [serve] ends
    without serving a call. When [e] is no [Exception] (such as
    [SystemExit]) nothing is replied and [e] leaves [serve]. *)
Theorem serve_constructor_raises fuel w e rest :
  reply_pending (self w) = false ->
  events w = EvRequest (Msg INIT_OBJECT_TAG (PClass (Raises e))) :: rest ->
  (is_Exception e = true ->
   exists w1, serve fuel w = (Ok tt, w1) /\
     trace w1 = AReply EXCEPTION_TAG [str_exn e ++ traceback_sep ++ format_exc e]
                  :: ARecv (Msg INIT_OBJECT_TAG (PClass (Raises e))) :: trace w /\
     client_is_alive (self w1) = false /\ reply_pending (self w1) = false /\
     events w1 = rest /\ os w1 = os w) /\
  (is_Exception e = false ->
   exists w1, serve fuel w = (Raise e, w1) /\
     trace w1 = ARecv (Msg INIT_OBJECT_TAG (PClass (Raises e))) :: trace w /\
     reply_pending (self w1) = true).
Proof.
  intros Hp He; split; intros Hx;
    unfold serve, try_except, bind at 1, wait_for_connection, bind at 1, recv_multipart;
    rewrite Hp, He; simpl;
    unfold bind, loads_class, call_outcome, raise, ret, try_except, send_multipart,
      set_client_is_alive, modify; simpl; rewrite Hx; simpl; rewrite ?Hx; simpl.
  - unfold reset_on_error, ret.
    eexists; split; [reflexivity |]; simpl; repeat split; reflexivity.
  - eexists; split; [reflexivity |]; simpl; split; reflexivity.
Qed.

Lemma serve_constructor_raises_witness :
  let e := OtherException "ValueError" "bad argument" in
  let w := demo_world distinct_ports [EvRequest (Msg INIT_OBJECT_TAG (PClass (Raises e)))] in
  exists w1, serve 3 w = (Ok tt, w1) /\ client_is_alive (self w1) = false /\
    head (trace w1) = Some (AReply EXCEPTION_TAG [str_exn e ++ traceback_sep ++ format_exc e]).
Proof.
  intros e w.
  destruct (serve_constructor_raises 3 w e [] eq_refl eq_refl) as [Hok _].
  destruct (Hok eq_refl) as (w1 & E & T & C & _).
  exists w1; rewrite T; auto.
Defined.

(** X9: when the first request of a session is not an [INIT_OBJECT],
    [wait_for_connection] answers it with [EXCEPTION] and the text
    [[job]Unkonwn tag when tried to receive the class definition], then
    raises [NotImplementedError], which [Job.run]'s [except Exception]
    catches; the job's flags, [client_is_alive] among them, are left as
    they were. *)
Theorem serve_unknown_first_tag fuel w m rest :
  reply_pending (self w) = false ->
  events w = EvRequest m :: rest ->
  m_tag m <> INIT_OBJECT_TAG ->
  exists w1, serve fuel w = (Ok tt, w1) /\
    trace w1 = AReply EXCEPTION_TAG
                 ["[job]Unkonwn tag when tried to receive the class definition"]
                 :: ARecv m :: trace w /\
    self w1 = self w /\ events w1 = rest /\ os w1 = os w.
Proof.
  intros Hp He Ht.
  unfold serve, try_except, bind at 1, wait_for_connection, bind at 1, recv_multipart.
  rewrite Hp, He; simpl.
  rewrite decide_False by exact Ht.
  unfold bind, send_multipart, raise; simpl.
  unfold reset_on_error, ret.
  eexists; split; [reflexivity |]; simpl.
  split; [reflexivity |]; split; [| split; reflexivity].
  destruct (self w); simpl in Hp |- *; subst; reflexivity.
Qed.

Lemma serve_unknown_first_tag_witness :
  let w := demo_world distinct_ports [EvRequest m_files] in
  exists w1, serve 1 w = (Ok tt, w1) /\
    trace w1 = AReply EXCEPTION_TAG
                 ["[job]Unkonwn tag when tried to receive the class definition"]
                 :: ARecv m_files :: trace w.
Proof.
  intros w.
  destruct (serve_unknown_first_tag 1 w m_files [] eq_refl eq_refl) as (w1 & E & T & _);
    [discriminate |].
  exists w1; split; assumption.
Defined.

(** X10: a [CALL] whose dispatch returns [r] is answered by one [NORMAL]
    reply carrying [r], and [single_task] goes on to its next request
    with the job's flags as they were. *)
Theorem single_task_call_returns fuel obj w name r rest :
  job_is_alive (self w) = true ->
  client_is_alive (self w) = true ->
  reply_pending (self w) = false ->
  events w = EvRequest (Msg CALL_TAG (PCall name (Returns r))) :: rest ->
  exists w1, single_task (S fuel) obj w = single_task fuel obj w1 /\
    trace w1 = AReply NORMAL_TAG [r] :: ARecv (Msg CALL_TAG (PCall name (Returns r)))
                 :: trace w /\
    self w1 = self w /\ events w1 = rest /\ os w1 = os w.
Proof.
  intros Hj Hc Hp He.
  rewrite single_task_unfold; cbv zeta; rewrite He; simpl; rewrite Hj, Hc; simpl.
  unfold recv_multipart; simpl; rewrite Hp; simpl.
  unfold bind at 1, handle_request; simpl.
  unfold try_except, bind, loads_call, call_outcome, ret, send_multipart; simpl.
  eexists; split; [reflexivity |]; simpl.
  split; [reflexivity |]; split; [| split; reflexivity].
  destruct (self w); simpl in Hp |- *; subst; reflexivity.
Qed.

Lemma single_task_call_returns_witness :
  let w := serving_world [EvRequest (m_call (Returns "42")); EvRequest m_kill] in
  exists w1, single_task 2 tt w = single_task 1 tt w1 /\
    trace w1 = AReply NORMAL_TAG ["42"] :: ARecv (m_call (Returns "42")) :: trace w.
Proof.
  intros w.
  destruct (single_task_call_returns 1 tt w "f" "42" [EvRequest m_kill])
    as (w1 & E & T & _); try reflexivity.
  exists w1; split; assumption.
Defined.

(** X11: a [KILLJOB] request, whatever its other frames, is answered by
    one empty [NORMAL] reply; [client_is_alive] becomes [False] and
    [single_task] returns without receiving another request. *)
Theorem single_task_killjob fuel obj w p rest :
  job_is_alive (self w) = true ->
  client_is_alive (self w) = true ->
  reply_pending (self w) = false ->
  events w = EvRequest (Msg KILLJOB_TAG p) :: rest ->
  exists w1, single_task (S fuel) obj w = (Ok tt, w1) /\
    trace w1 = AReply NORMAL_TAG [] :: ARecv (Msg KILLJOB_TAG p) :: trace w /\
    client_is_alive (self w1) = false /\ reply_pending (self w1) = false.
Proof.
  intros Hj Hc Hp He.
  rewrite single_task_unfold; cbv zeta; rewrite He; simpl; rewrite Hj, Hc; simpl.
  unfold recv_multipart; simpl; rewrite Hp; simpl.
  unfold bind at 1, handle_request; simpl.
  unfold bind, send_multipart, set_client_is_alive, modify; simpl.
  match goal with
  | |- context [single_task fuel obj ?w2] =>
      destruct (single_task_after_reply fuel obj w2) as (w' & E & C & P & T);
        [reflexivity |]
  end.
  rewrite E; exists w'; rewrite C, P, T; auto.
Qed.

Lemma single_task_killjob_witness :
  let w := serving_world [EvRequest m_kill; EvRequest (m_call (Returns "1"))] in
  exists w1, single_task 5 tt w = (Ok tt, w1) /\
    trace w1 = AReply NORMAL_TAG [] :: ARecv m_kill :: trace w.
Proof.
  intros w.
  destruct (single_task_killjob 4 tt w PNone [EvRequest (m_call (Returns "1"))])
    as (w1 & E & T & _); try reflexivity.
  exists w1; split; assumption.
Defined.

(** X12: when the worker heartbeat thread, after its timeout, sets
    [job_is_alive] to [False], or the client heartbeat times out while
    its thread runs, before the next request is read,
    [single_task] returns at its loop test without receiving anything:
    nothing is received or sent, and the request socket's state is kept. *)
Theorem single_task_heartbeat_lost fuel obj w te rest :
  (te = WorkerExit /\ worker_is_alive (self w) = false) \/
  (te = ClientTimeout /\ client_thread (self w) = Running) ->
  events w = EvThread te :: rest ->
  exists w1, single_task fuel obj w = (Ok tt, w1) /\
    trace w1 = trace w /\ reply_pending (self w1) = reply_pending (self w).
Proof.
  intros Hte He; rewrite single_task_unfold; cbv zeta; rewrite He; cbn [poll_events].
  assert (Hdead : job_is_alive (self (thread_step te w)) = false \/
                  client_is_alive (self (thread_step te w)) = false).
  { destruct Hte as [[-> Hw] | [-> Hr]]; simpl.
    - rewrite Hw; simpl; destruct (job_is_alive (self w)) eqn:Hj; simpl; auto.
    - rewrite Hr; simpl; auto. }
  destruct (frame_poll_events rest (thread_step te w)) as [Fj _].
  destruct (poll_events_spec rest (thread_step te w)) as (T & _ & P & C & _).
  destruct (thread_step_spec te w) as (T0 & _ & _ & P0 & _).
  replace (job_is_alive _ && client_is_alive _) with false
    by (destruct Hdead as [H | H]; [rewrite (Fj H) | rewrite (C H), andb_false_r];
        reflexivity).
  eexists; split; [reflexivity |]; split; congruence.
Qed.

Lemma single_task_heartbeat_lost_witness :
  let w := serving_world [EvThread ClientTimeout; EvRequest (m_call (Returns "1"))] in
  exists w1, single_task 3 tt w = (Ok tt, w1) /\ trace w1 = trace w.
Proof.
  intros w.
  destruct (single_task_heartbeat_lost 3 tt w ClientTimeout [EvRequest (m_call (Returns "1"))])
    as (w1 & E & T & _); [right; split; reflexivity | reflexivity |].
  exists w1; split; assumption.
Defined.

(** ** Bundle keys *)


